(** * LightDNS: the DNS wire codec, the resolver and the request handler

    A shallow embedding of [dnsserver.go] (the codec [readDomainName] /
    [writeDomainName], the resolver [dbLookup] and the per-datagram handler
    [handleDNSClient]) and of the part of the name store it consumes
    ([Name], [GetNames]).

    Conventions.
    - A Go [byte] is an [ascii] (eight bits); a Go [string] is a Rocq
      [string] (a sequence of bytes); a [[]byte] is a [list byte].
    - [uint16] and [uint32] values are [N], with the wrap-around of a
      conversion written out ([mod 2^16]).
    - A [bytes.Buffer] that is read from is the list of its unread bytes;
      one that is written to is the list of the bytes written so far.
    - A run-time panic (index or slice bounds out of range) is [None] in an
      [option] result; [Some] is normal completion.
    - [fmt.Println] logging is not part of the model. *)

From Stdlib Require Import List String Ascii NArith Arith Bool Lia.
From Equations.Prop Require Import Equations Logic.
Import ListNotations.

Local Open Scope string_scope.
Local Open Scope list_scope.

(** ** Bytes, errors and [bytes.Buffer] *)

Definition byte := ascii.

(** The error values the core can observe. *)
Inductive error : Type :=
| EOF                     (* io.EOF *)
| ErrUnexpectedEOF        (* io.ErrUnexpectedEOF *)
| StoreError (msg : string). (* os.ReadFile / json.Unmarshal failure *)

Definition Buffer := list byte.

(** [Buffer.ReadByte]: the next byte, or [0, io.EOF] on an empty buffer. *)
Definition ReadByte (buf : Buffer) : byte * option error * Buffer :=
  match buf with
  | [] => (zero, Some EOF, [])
  | b :: rest => (b, None, rest)
  end.

(** [Buffer.Next n]: the next [n] bytes, or the whole buffer when it holds
    fewer than [n]; the buffer advances past what is returned. *)
Definition Next (n : nat) (buf : Buffer) : list byte * Buffer :=
  (firstn n buf, skipn n buf).

(** [Buffer.WriteByte] and [Buffer.Write] append. *)
Definition WriteByte (buf : Buffer) (b : byte) : Buffer := buf ++ [b].
Definition Write_bytes (buf : Buffer) (p : list byte) : Buffer := buf ++ p.

(** ** [readDomainName] *)

(** The local variables of [readDomainName] at the loop condition. *)
Record read_state : Type := mkReadState {
  rs_b : byte;
  rs_err : option error;
  rs_buf : Buffer;
  rs_domainName : string
}.

Definition is_nil (e : option error) : bool :=
  match e with None => true | Some _ => false end.

(** The loop condition [b != 0 && err == nil]. *)
Definition read_cond (st : read_state) : bool :=
  negb (Ascii.eqb (rs_b st) zero) && is_nil (rs_err st).

(** One iteration: the loop body followed by the post statement
    [b, err = requestBuffer.ReadByte()]. *)
Definition read_iter (st : read_state) : read_state :=
  let labelLength := nat_of_ascii (rs_b st) in
  let '(labelBytes, buf1) := Next labelLength (rs_buf st) in
  let labelName := string_of_list_ascii labelBytes in
  let domainName :=
    if Nat.eqb (String.length (rs_domainName st)) 0 then labelName
    else (rs_domainName st ++ "." ++ labelName)%string in
  let '(b, err, buf2) := ReadByte buf1 in
  mkReadState b err buf2 domainName.

(** What is left to do: the unread bytes, plus one when an iteration is due. *)
Definition read_measure (st : read_state) : nat :=
  List.length (rs_buf st) + Nat.b2n (read_cond st).

Equations? readDomainName_loop (st : read_state) : read_state
  by wf (read_measure st) lt :=
readDomainName_loop st with inspect (read_cond st) := {
  | exist _ true Hc => readDomainName_loop (read_iter st)
  | exist _ false _ => st }.
Proof.
  unfold read_measure. rewrite Hc.
  destruct st as [b err buf name]. unfold read_iter, Next. cbn [rs_buf rs_b rs_domainName].
  pose proof (length_skipn (nat_of_ascii b) buf) as Hlen.
  destruct (skipn (nat_of_ascii b) buf) as [|c rest] eqn:Hs;
    cbn [ReadByte List.length rs_buf] in *.
  - cbn. lia.
  - match goal with |- _ + Nat.b2n ?c < _ => destruct c end; cbn; lia.
Qed.

(** [readDomainName]: the name, the error, and the buffer as it is left. *)
Definition readDomainName (requestBuffer : Buffer) : string * option error * Buffer :=
  let '(b, err, buf) := ReadByte requestBuffer in
  let st := readDomainName_loop (mkReadState b err buf "") in
  (rs_domainName st, rs_err st, rs_buf st).

(** ** [writeDomainName] *)

(** [strings.Split s sep] for a one-byte separator: the pieces of [s] between
    the occurrences of [sep]; a string without [sep] (the empty string too) is
    one piece. *)
Fixpoint Split (s : string) (sep : ascii) : list string :=
  match s with
  | EmptyString => [EmptyString]
  | String c s' =>
      if Ascii.eqb c sep then EmptyString :: Split s' sep
      else match Split s' sep with
           | piece :: pieces => String c piece :: pieces
           | [] => [String c EmptyString]
           end
  end.

(** The conversion [byte(n)] of an [int]: the low eight bits. *)
Definition byte_of_int (n : nat) : byte := ascii_of_nat (n mod 256).

(** The body of the [for _, label := range labels] loop. *)
Definition write_label (responseBuffer : Buffer) (label : string) : Buffer :=
  let labelLength := String.length label in
  let labelBytes := list_ascii_of_string label in
  Write_bytes (WriteByte responseBuffer (byte_of_int labelLength)) labelBytes.

Definition writeDomainName (responseBuffer : Buffer) (domainName : string)
  : Buffer * option error :=
  let labels := Split domainName "." in
  let responseBuffer := fold_left write_label labels responseBuffer in
  (WriteByte responseBuffer zero, None).

(** ** Headers, records and the wire integers *)

Record DNSHeader : Type := mkHeader {
  TransactionID : N;
  Flags : N;
  NumQuestions : N;
  NumAnswers : N;
  NumAuthorities : N;
  NumAdditionals : N
}.

Record DNSResourceRecord : Type := mkRR {
  DomainName : string;
  Type_ : N;
  Class_ : N;
  TimeToLive : N;
  ResourceDataLength : N;
  ResourceData : list byte
}.

Definition TypeA : N := 1.
Definition ClassINET : N := 1.
Definition FlagResponse : N := N.shiftl 1 15.
Definition UDPMaxMessageSizeBytes : nat := 512.

(** The conversion [uint16(n)] of an [int]. *)
Definition uint16_of_int (n : nat) : N := (N.of_nat n mod 2 ^ 16)%N.

(** [binary.BigEndian.Uint16]: panics on a slice of fewer than two bytes. *)
Definition Uint16 (b : list byte) : option N :=
  match b with
  | b0 :: b1 :: _ => Some (N_of_ascii b0 * 256 + N_of_ascii b1)%N
  | _ => None
  end.

Definition be16 (hi lo : byte) : N := (N_of_ascii hi * 256 + N_of_ascii lo)%N.

Definition zeroHeader : DNSHeader := mkHeader 0 0 0 0 0 0.

(** [binary.Read(requestBuffer, binary.BigEndian, &queryHeader)]: twelve bytes
    are decoded; with fewer, what there is is consumed, the header is left
    zero and an error is returned. *)
Definition binary_Read_header (buf : Buffer) : DNSHeader * option error * Buffer :=
  match buf with
  | i1 :: i0 :: f1 :: f0 :: q1 :: q0 :: a1 :: a0 :: u1 :: u0 :: d1 :: d0 :: rest =>
      (mkHeader (be16 i1 i0) (be16 f1 f0) (be16 q1 q0)
                (be16 a1 a0) (be16 u1 u0) (be16 d1 d0), None, rest)
  | [] => (zeroHeader, Some EOF, [])
  | _ => (zeroHeader, Some ErrUnexpectedEOF, [])
  end.

(** Modelled from the spec: the helper [Write(buffer, value)] that
    [handleDNSClient] calls is not among the sources. The spec has every
    multi-byte integer written most-significant byte first, the header as
    twelve bytes in the field order of the decoder, and resource data as raw
    bytes. *)
Definition Write_uint16 (buf : Buffer) (v : N) : Buffer :=
  buf ++ [ascii_of_N (v / 2 ^ 8 mod 2 ^ 8)%N; ascii_of_N (v mod 2 ^ 8)%N].

Definition Write_uint32 (buf : Buffer) (v : N) : Buffer :=
  buf ++ [ascii_of_N (v / 2 ^ 24 mod 2 ^ 8)%N; ascii_of_N (v / 2 ^ 16 mod 2 ^ 8)%N;
          ascii_of_N (v / 2 ^ 8 mod 2 ^ 8)%N; ascii_of_N (v mod 2 ^ 8)%N].

Definition Write_header (buf : Buffer) (h : DNSHeader) : Buffer :=
  let buf := Write_uint16 buf (TransactionID h) in
  let buf := Write_uint16 buf (Flags h) in
  let buf := Write_uint16 buf (NumQuestions h) in
  let buf := Write_uint16 buf (NumAnswers h) in
  let buf := Write_uint16 buf (NumAuthorities h) in
  Write_uint16 buf (NumAdditionals h).

(** ** The name store and [dbLookup] *)

(** [net.IP] is a byte slice; [net.ParseIP] returns sixteen bytes for a valid
    address, an IPv4 one in the last four, and [nil] for an invalid one. The
    capacity of such a slice is its length. *)
Definition IP := list byte.

Record Name : Type := mkName {
  Name_Name : string;
  Name_Address : IP
}.

(** An entry as [names.json] holds it. *)
Record NameModel : Type := mkNameModel {
  NameModel_Name : string;
  NameModel_Address : string
}.

(** [To]: every entry with its address parsed. [net.ParseIP] is a parameter;
    nothing checks what it returns. *)
Definition To (ParseIP : string -> IP) (models : list NameModel) : list Name :=
  fold_left
    (fun names value =>
       names ++ [mkName (NameModel_Name value) (ParseIP (NameModel_Address value))])
    models [].

(** What a call of [GetNames] returns: the entries and the error. *)
Definition names_result : Type := list Name * option error.

(** [strings.HasPrefix] and [strings.Contains]. *)
Fixpoint HasPrefix (s prefix : string) {struct prefix} : bool :=
  match prefix, s with
  | EmptyString, _ => true
  | String p prefix', String c s' => Ascii.eqb c p && HasPrefix s' prefix'
  | String _ _, EmptyString => false
  end.

Fixpoint Contains (s substr : string) : bool :=
  HasPrefix s substr ||
  match s with
  | EmptyString => false
  | String _ s' => Contains s' substr
  end.

(** The slice expression [a[lo:hi]]: panics unless [lo <= hi <= cap a]. *)
Definition slice (a : list byte) (lo hi : nat) : option (list byte) :=
  if ((lo <=? hi) && (hi <=? List.length a))%nat then Some (firstn (hi - lo) (skipn lo a))
  else None.

(** The [for _, name := range names] loop of [dbLookup]. *)
Fixpoint dbLookup_range (queryName : string) (names : list Name)
    (answerResourceRecords : list DNSResourceRecord)
  : option (list DNSResourceRecord) :=
  match names with
  | [] => Some answerResourceRecords
  | name :: names' =>
      if Contains queryName (Name_Name name) then
        match slice (Name_Address name) 12 16 with
        | None => None
        | Some data =>
            dbLookup_range queryName names'
              (answerResourceRecords ++
               [mkRR (Name_Name name) TypeA ClassINET 31337 4 data])
        end
      else dbLookup_range queryName names' answerResourceRecords
  end.

Definition sections : Type :=
  (list DNSResourceRecord * list DNSResourceRecord * list DNSResourceRecord)%type.

(** [dbLookup], given what its call of [GetNames] returned. *)
Definition dbLookup (got : names_result) (queryResourceRecord : DNSResourceRecord)
  : option sections :=
  let answerResourceRecords : list DNSResourceRecord := [] in
  let authorityResourceRecords : list DNSResourceRecord := [] in
  let additionalResourceRecords : list DNSResourceRecord := [] in
  let '(names, err) := got in
  if negb (is_nil err) then
    Some (answerResourceRecords, authorityResourceRecords, additionalResourceRecords)
  else if negb (N.eqb (Type_ queryResourceRecord) TypeA)
          || negb (N.eqb (Class_ queryResourceRecord) ClassINET) then
    Some (answerResourceRecords, authorityResourceRecords, additionalResourceRecords)
  else
    match dbLookup_range (DomainName queryResourceRecord) names answerResourceRecords with
    | None => None
    | Some answerResourceRecords =>
        Some (answerResourceRecords, authorityResourceRecords, additionalResourceRecords)
    end.

(** ** [handleDNSClient] *)

(** The question-decoding loop: [n] entries are still to be filled. Each
    [binary.BigEndian.Uint16(requestBuffer.Next(2))] panics when fewer than
    two bytes are left; an error of [readDomainName] is only logged. *)
Fixpoint decodeQuestions (n : nat) (requestBuffer : Buffer)
  : option (list DNSResourceRecord * Buffer) :=
  match n with
  | O => Some ([], requestBuffer)
  | S n' =>
      let '(domainName, err, buf1) := readDomainName requestBuffer in
      let '(typeBytes, buf2) := Next 2 buf1 in
      match Uint16 typeBytes with
      | None => None
      | Some type =>
          let '(classBytes, buf3) := Next 2 buf2 in
          match Uint16 classBytes with
          | None => None
          | Some class =>
              match decodeQuestions n' buf3 with
              | None => None
              | Some (records, buf) =>
                  Some (mkRR domainName type class 0 0 [] :: records, buf)
              end
          end
      end
  end.

(** The decoding part of the handler: the header, then
    [queryHeader.NumQuestions] questions. *)
Definition decodeRequest (requestBytes : list byte)
  : option (DNSHeader * list DNSResourceRecord) :=
  let '(queryHeader, err, requestBuffer) := binary_Read_header requestBytes in
  match decodeQuestions (N.to_nat (NumQuestions queryHeader)) requestBuffer with
  | None => None
  | Some (queryResourceRecords, _) => Some (queryHeader, queryResourceRecords)
  end.

(** The resolving loop. Every [dbLookup] calls [GetNames] anew: [GetNames k]
    is what the call made for the question of index [k] returns. The three
    accumulators are appended to in question order. *)
Fixpoint resolveQuestions (GetNames : nat -> names_result) (idx : nat)
    (queryResourceRecords : list DNSResourceRecord) (acc : sections)
  : option sections :=
  match queryResourceRecords with
  | [] => Some acc
  | queryResourceRecord :: rest =>
      match dbLookup (GetNames idx) queryResourceRecord with
      | None => None
      | Some (newAnswerRR, newAuthorityRR, newAdditionalRR) =>
          let '(answerResourceRecords, authorityResourceRecords,
                additionalResourceRecords) := acc in
          resolveQuestions GetNames (S idx) rest
            (answerResourceRecords ++ newAnswerRR,
             authorityResourceRecords ++ newAuthorityRR,
             additionalResourceRecords ++ newAdditionalRR)
      end
  end.

Definition responseHeader (queryHeader : DNSHeader)
    (answerResourceRecords authorityResourceRecords
     additionalResourceRecords : list DNSResourceRecord) : DNSHeader :=
  {| TransactionID := TransactionID queryHeader;
     Flags := FlagResponse;
     NumQuestions := NumQuestions queryHeader;
     NumAnswers := uint16_of_int (List.length answerResourceRecords);
     NumAuthorities := uint16_of_int (List.length authorityResourceRecords);
     NumAdditionals := uint16_of_int (List.length additionalResourceRecords) |}.

(** The body of the loop that echoes the questions. *)
Definition write_question (responseBuffer : Buffer) (r : DNSResourceRecord) : Buffer :=
  let '(responseBuffer, err) := writeDomainName responseBuffer (DomainName r) in
  let responseBuffer := Write_uint16 responseBuffer (Type_ r) in
  Write_uint16 responseBuffer (Class_ r).

(** The body of the loops over the answer, authority and additional records. *)
Definition write_record (responseBuffer : Buffer) (r : DNSResourceRecord) : Buffer :=
  let '(responseBuffer, err) := writeDomainName responseBuffer (DomainName r) in
  let responseBuffer := Write_uint16 responseBuffer (Type_ r) in
  let responseBuffer := Write_uint16 responseBuffer (Class_ r) in
  let responseBuffer := Write_uint32 responseBuffer (TimeToLive r) in
  let responseBuffer := Write_uint16 responseBuffer (ResourceDataLength r) in
  Write_bytes responseBuffer (ResourceData r).

(** The encoding part of the handler, from [new(bytes.Buffer)]. *)
Definition encodeResponse (responseHeader : DNSHeader)
    (queryResourceRecords answerResourceRecords authorityResourceRecords
     additionalResourceRecords : list DNSResourceRecord) : Buffer :=
  let responseBuffer := Write_header [] responseHeader in
  let responseBuffer := fold_left write_question queryResourceRecords responseBuffer in
  let responseBuffer := fold_left write_record answerResourceRecords responseBuffer in
  let responseBuffer := fold_left write_record authorityResourceRecords responseBuffer in
  fold_left write_record additionalResourceRecords responseBuffer.

(** [handleDNSClient]: [Some bytes] when [bytes] is handed to
    [serverConn.WriteToUDP], [None] when the goroutine panics before that. *)
Definition handleDNSClient (GetNames : nat -> names_result) (requestBytes : list byte)
  : option (list byte) :=
  match decodeRequest requestBytes with
  | None => None
  | Some (queryHeader, queryResourceRecords) =>
      match resolveQuestions GetNames 0 queryResourceRecords ([], [], []) with
      | None => None
      | Some (answerResourceRecords, authorityResourceRecords,
              additionalResourceRecords) =>
          Some (encodeResponse
                  (responseHeader queryHeader answerResourceRecords
                     authorityResourceRecords additionalResourceRecords)
                  queryResourceRecords answerResourceRecords
                  authorityResourceRecords additionalResourceRecords)
      end
  end.

(** * Vocabulary of the statements *)

(** The state at the first evaluation of the loop condition. *)
Definition read_init (requestBuffer : Buffer) : read_state :=
  let '(b, err, buf) := ReadByte requestBuffer in mkReadState b err buf "".

(** The loop entered at its [ReadByte]: the initialisation and the post
    statement of the [for] are the same call. *)
Definition read_from (buf : Buffer) (domainName : string) : read_state :=
  let '(b, err, buf') := ReadByte buf in
  readDomainName_loop (mkReadState b err buf' domainName).

(** The name the loop holds after one more label. *)
Definition add_label (domainName labelName : string) : string :=
  if Nat.eqb (String.length domainName) 0 then labelName
  else (domainName ++ "." ++ labelName)%string.

(** The bytes [writeDomainName] writes for one label. *)
Definition label_bytes (label : string) : list byte :=
  byte_of_int (String.length label) :: list_ascii_of_string label.

Definition u16_bytes (v : N) : list byte :=
  [ascii_of_N (v / 2 ^ 8 mod 2 ^ 8)%N; ascii_of_N (v mod 2 ^ 8)%N].

Definition u32_bytes (v : N) : list byte :=
  [ascii_of_N (v / 2 ^ 24 mod 2 ^ 8)%N; ascii_of_N (v / 2 ^ 16 mod 2 ^ 8)%N;
   ascii_of_N (v / 2 ^ 8 mod 2 ^ 8)%N; ascii_of_N (v mod 2 ^ 8)%N].

Definition header_bytes (h : DNSHeader) : list byte :=
  u16_bytes (TransactionID h) ++ u16_bytes (Flags h) ++ u16_bytes (NumQuestions h) ++
  u16_bytes (NumAnswers h) ++ u16_bytes (NumAuthorities h) ++ u16_bytes (NumAdditionals h).

Definition name_bytes (domainName : string) : list byte :=
  flat_map label_bytes (Split domainName ".") ++ [zero].

(** One entry of the question section, and one of the other sections, as
    the handler serializes it. *)
Definition question_bytes (r : DNSResourceRecord) : list byte :=
  name_bytes (DomainName r) ++ u16_bytes (Type_ r) ++ u16_bytes (Class_ r).

Definition record_bytes (r : DNSResourceRecord) : list byte :=
  name_bytes (DomainName r) ++ u16_bytes (Type_ r) ++ u16_bytes (Class_ r) ++
  u32_bytes (TimeToLive r) ++ u16_bytes (ResourceDataLength r) ++ ResourceData r.

Definition header_in_range (h : DNSHeader) : Prop :=
  (TransactionID h < 2 ^ 16 /\ Flags h < 2 ^ 16 /\ NumQuestions h < 2 ^ 16 /\
   NumAnswers h < 2 ^ 16 /\ NumAuthorities h < 2 ^ 16 /\ NumAdditionals h < 2 ^ 16)%N.

Definition matches (queryName : string) (name : Name) : bool :=
  Contains queryName (Name_Name name).

(** The last four bytes of an address. *)
Definition last4 (a : IP) : list byte := skipn (List.length a - 4) a.

(** The record [dbLookup] appends for a matching entry, given the four bytes
    it sliced out of the address. *)
Definition answer_with (data : list byte) (name : Name) : DNSResourceRecord :=
  mkRR (Name_Name name) TypeA ClassINET 31337 4 data.

(** A question as a client lays it out on the wire: the labels, each after
    a byte giving its length, a zero byte, then two bytes of type and two of
    class. *)
Record wire_question : Type := mkWireQuestion {
  wq_labels : list string;
  wq_type : byte * byte;
  wq_class : byte * byte
}.

Definition wire_question_bytes (w : wire_question) : list byte :=
  flat_map (fun label => ascii_of_nat (String.length label) :: list_ascii_of_string label)
           (wq_labels w) ++
  [zero; fst (wq_type w); snd (wq_type w); fst (wq_class w); snd (wq_class w)].

Definition dot_free (label : string) : Prop :=
  ~ In "."%char (list_ascii_of_string label).

Definition label_ok (label : string) : Prop :=
  1 <= String.length label <= 255 /\ dot_free label.

(** At least one label, every label of 1 to 255 bytes, none with a dot. *)
Definition wire_question_ok (w : wire_question) : Prop :=
  wq_labels w <> [] /\ Forall label_ok (wq_labels w).

(** The record the handler decodes such a question to. *)
Definition decoded_question (w : wire_question) : DNSResourceRecord :=
  mkRR (String.concat "." (wq_labels w))
       (be16 (fst (wq_type w)) (snd (wq_type w)))
       (be16 (fst (wq_class w)) (snd (wq_class w))) 0 0 [].

(** Every call of [GetNames] the handler makes fails or returns entries with
    addresses of sixteen bytes or more. *)
Definition store_ok (GetNames : nat -> names_result) : Prop :=
  forall k names, GetNames k = (names, None) ->
    Forall (fun name => 16 <= List.length (Name_Address name)) names.

(** * Inputs of the examples *)

Definition example_names : list Name :=
  [mkName "example.com" (repeat zero 12 ++ map ascii_of_N [1; 2; 3; 4]%N);
   mkName "other.org" (repeat zero 12 ++ map ascii_of_N [9; 9; 9; 9]%N);
   mkName "foo.example.com" (repeat zero 12 ++ map ascii_of_N [5; 6; 7; 8]%N)].

Definition example_request : list byte :=
  map ascii_of_N [18; 52; 1; 0; 0; 1; 0; 0; 0; 0; 0; 0]%N ++
  name_bytes "foo.example.com" ++ map ascii_of_N [0; 1; 0; 1]%N ++
  repeat zero 20.

Definition many_names : list Name :=
  repeat (mkName "a" (repeat zero 16)) (N.to_nat 65536).

Definition one_question_request : list byte :=
  map ascii_of_N [0; 1; 1; 0; 0; 1; 0; 0; 0; 0; 0; 0]%N ++
  name_bytes "a" ++ map ascii_of_N [0; 1; 0; 1]%N.

(** A full-size datagram whose header announces 101 questions and whose
    500 remaining bytes are zero: 100 root-name questions fit, and the
    101st finds the buffer empty. *)
Definition overcounted_request : list byte :=
  map ascii_of_N [18; 52; 1; 0; 0; 101; 0; 0; 0; 0; 0; 0]%N ++ repeat zero 500.

(** A full-size datagram with one question whose second label announces 255
    bytes where 243 are left. *)
Definition overlong_label_request : list byte :=
  map ascii_of_N [18; 52; 1; 0; 0; 1; 0; 0; 0; 0; 0; 0]%N ++
  ascii_of_N 255 :: repeat "a"%char 255 ++ ascii_of_N 255 :: repeat "b"%char 243.

Definition example_header : list byte :=
  map ascii_of_N [18; 52; 1; 0; 0; 2; 0; 0; 0; 0; 0; 0]%N.

Definition example_questions : list wire_question :=
  [mkWireQuestion ["foo"; "example"; "com"] (zero, "001"%char) (zero, "001"%char);
   mkWireQuestion ["other"; "org"] (zero, "028"%char) (zero, "001"%char)].

(** * The name store: [GetNames], [handleAddEntry], [LoadFromFile] *)

(** [GetNames], given what [os.ReadFile] returned and [json.Unmarshal] as a
    function of the data read. *)
Definition GetNames_read (ParseIP : string -> IP)
    (ReadFile : string * option error)
    (Unmarshal : string -> list NameModel * option error) : names_result :=
  let '(data, err) := ReadFile in
  match err with
  | Some e => ([], Some e)
  | None =>
      let '(models, err) := Unmarshal data in
      match err with
      | Some e => ([], Some e)
      | None => (To ParseIP models, None)
      end
  end.

Inductive http_status : Type :=
| StatusOK
| StatusBadRequest
| StatusInternalServerError.

(** The loop of [handleAddEntry] over the existing entries: the first entry
    of that name gets the new address and the loop breaks. The result is the
    slice and [nameExists]. *)
Fixpoint update_entry (ParseIP : string -> IP) (name ip : string)
    (existingEntries : list Name) : list Name * bool :=
  match existingEntries with
  | [] => ([], false)
  | entry :: rest =>
      if String.eqb (Name_Name entry) name then
        (mkName (Name_Name entry) (ParseIP ip) :: rest, true)
      else
        let '(rest', nameExists) := update_entry ParseIP name ip rest in
        (entry :: rest', nameExists)
  end.

(** [handleAddEntry], given the two query parameters, what [GetNames]
    returned, and the errors of [json.MarshalIndent] and [os.WriteFile]: the
    status of the reply and, when the file was written, the entries written. *)
Definition handleAddEntry (ParseIP : string -> IP) (name ip : string)
    (got : names_result) (marshal_err write_err : option error)
  : http_status * option (list Name) :=
  if String.eqb name "" || String.eqb ip "" then (StatusBadRequest, None)
  else
    let '(existingEntries, err) := got in
    if negb (is_nil err) then (StatusInternalServerError, None)
    else
      let '(existingEntries, nameExists) :=
        update_entry ParseIP name ip existingEntries in
      let existingEntries :=
        if nameExists then existingEntries
        else existingEntries ++ [mkName name (ParseIP ip)] in
      if negb (is_nil marshal_err) then (StatusInternalServerError, None)
      else if negb (is_nil write_err) then (StatusInternalServerError, None)
      else (StatusOK, Some existingEntries).

(** [nameDB.data], a [map[string]net.IP]: what a key is bound to. *)
Definition nameDB_data : Type := string -> option IP.

Definition map_empty : nameDB_data := fun _ => None.

(** The assignment [m[key] = value]. *)
Definition map_set (m : nameDB_data) (key : string) (value : IP) : nameDB_data :=
  fun k => if String.eqb k key then Some value else m k.

(** What [ioutil.ReadFile] returned to [LoadFromFile]: the data, an error
    that [os.IsNotExist] accepts, or another error. *)
Inductive ReadFile_result : Type :=
| ReadFile_data (data : string)
| ReadFile_not_exist (e : error)
| ReadFile_failed (e : error).

(** The two errors [LoadFromFile] makes with [fmt.Errorf]. *)
Inductive load_error : Type :=
| ErrReadingFile (cause : error)
| ErrUnmarshallingData (cause : error).

(** [LoadFromFile], from the database it finds: the error and the database
    it leaves. [json.Unmarshal] into a slice of [Name] is a parameter. *)
Definition LoadFromFile (ParseIP : string -> IP) (read : ReadFile_result)
    (Unmarshal : string -> list Name * option error) (data0 : nameDB_data)
  : option load_error * nameDB_data :=
  match read with
  | ReadFile_not_exist _ => (None, data0)
  | ReadFile_failed e => (Some (ErrReadingFile e), data0)
  | ReadFile_data data =>
      let '(models, err) := Unmarshal data in
      match err with
      | Some e => (Some (ErrUnmarshallingData e), data0)
      | None =>
          (None,
           fold_left
             (fun m entry =>
                map_set m (Name_Name entry)
                  (ParseIP (string_of_list_ascii (Name_Address entry))))
             models map_empty)
      end
  end.

(** ** Vocabulary of the further statements *)

(** The first entry of a given name. *)
Definition first_named (name : string) (entries : list Name) : option Name :=
  find (fun entry => String.eqb (Name_Name entry) name) entries.

(** No entry has the name. *)
Definition no_entry_named (name : string) (entries : list Name) : Prop :=
  forall entry, In entry entries -> Name_Name entry <> name.

(** The toy parser of the examples: one address is valid. *)
Definition example_ParseIP (s : string) : IP :=
  if String.eqb s "1.2.3.4" then repeat zero 12 ++ map ascii_of_N [1; 2; 3; 4]%N
  else [].

(** What each question's lookup answers, question by question; the lookup
    of the question of index [k] meets [GetNames (idx + k)]. *)
Fixpoint answers_per_question (GetNames : nat -> names_result) (idx : nat)
    (qs : list DNSResourceRecord) : list (list DNSResourceRecord) :=
  match qs with
  | [] => []
  | q :: rest =>
      match dbLookup (GetNames idx) q with
      | Some (answers, _, _) => answers
      | None => []
      end :: answers_per_question GetNames (S idx) rest
  end.

(** The question is one [dbLookup] answers from the table: type A, class
    INET. *)
Definition is_A_INET (w : wire_question) : bool :=
  N.eqb (be16 (fst (wq_type w)) (snd (wq_type w))) TypeA &&
  N.eqb (be16 (fst (wq_class w)) (snd (wq_class w))) ClassINET.

(** What every answer of [dbLookup] looks like. *)
Definition answer_shape (queryName : string) (names : list Name)
    (r : DNSResourceRecord) : Prop :=
  Type_ r = TypeA /\ Class_ r = ClassINET /\ TimeToLive r = 31337%N /\
  ResourceDataLength r = N.of_nat (List.length (ResourceData r)) /\
  List.length (ResourceData r) = 4 /\
  exists name, In name names /\ DomainName r = Name_Name name /\
               Contains queryName (Name_Name name) = true.

Definition two_question_request : list byte :=
  example_header ++ flat_map wire_question_bytes example_questions.

(** * Properties *)

(** ** The decoding loop *)

Lemma read_iter_decreases (st : read_state) :
  read_cond st = true -> read_measure (read_iter st) < read_measure st.
Proof.
  intros Hc. unfold read_measure. rewrite Hc.
  destruct st as [b err buf name]. unfold read_iter, Next. cbn [rs_buf rs_b rs_domainName].
  pose proof (length_skipn (nat_of_ascii b) buf) as Hlen.
  destruct (skipn (nat_of_ascii b) buf) as [|c rest] eqn:Hs;
    cbn [ReadByte List.length rs_buf] in *.
  - cbn. lia.
  - match goal with |- _ + Nat.b2n ?c < _ => destruct c end; cbn; lia.
Qed.

Lemma readDomainName_loop_eq (st : read_state) :
  readDomainName_loop st =
  if read_cond st then readDomainName_loop (read_iter st) else st.
Proof.
  funelim (readDomainName_loop st).
  - rewrite Hc. reflexivity.
  - rewrite e. reflexivity.
Qed.

Lemma readDomainName_read_init (requestBuffer : Buffer) :
  readDomainName requestBuffer =
  let st := readDomainName_loop (read_init requestBuffer) in
  (rs_domainName st, rs_err st, rs_buf st).
Proof.
  unfold readDomainName, read_init. destruct (ReadByte requestBuffer) as [[b err] buf].
  reflexivity.
Qed.

Lemma read_init_measure (requestBuffer : Buffer) :
  read_measure (read_init requestBuffer) <= List.length requestBuffer.
Proof.
  destruct requestBuffer as [|b rest]; cbn.
  - lia.
  - unfold read_measure; cbn [rs_buf]. destruct (read_cond _); cbn; lia.
Qed.

(** The loop stops after [k] iterations, and every iteration uses up at
    least one unit of the measure, that is one byte read. *)
Lemma readDomainName_loop_iterations (m : nat) :
  forall st, read_measure st <= m ->
  exists k,
    (forall j, j < k -> read_cond (Nat.iter j read_iter st) = true) /\
    read_cond (Nat.iter k read_iter st) = false /\
    readDomainName_loop st = Nat.iter k read_iter st /\
    k + read_measure (Nat.iter k read_iter st) <= read_measure st.
Proof.
  induction m as [|m IH]; intros st Hm.
  - exists 0. rewrite readDomainName_loop_eq.
    change (Nat.iter 0 read_iter st) with st.
    assert (Hc : read_cond st = false).
    { unfold read_measure in Hm. destruct (read_cond st); [cbn in Hm; lia | reflexivity]. }
    rewrite Hc. split; [intros j Hj; lia|]. split; [reflexivity|].
    split; [reflexivity|lia].
  - destruct (read_cond st) eqn:Hc.
    + pose proof (read_iter_decreases st Hc) as Hdec.
      destruct (IH (read_iter st)) as (k & Hlt & Hstop & Hres & Hbound); [lia|].
      exists (S k). rewrite Nat.iter_succ_r. split; [|split; [|split]].
      * intros [|j] Hj; [exact Hc|]. rewrite Nat.iter_succ_r. apply Hlt. lia.
      * exact Hstop.
      * rewrite readDomainName_loop_eq, Hc. exact Hres.
      * lia.
    + exists 0. rewrite readDomainName_loop_eq, Hc.
      change (Nat.iter 0 read_iter st) with st.
      split; [intros j Hj; lia|]. split; [exact Hc|].
      split; [reflexivity|lia].
Qed.

(** C10. [readDomainName] returns on every buffer: from the state at the
    first test of the loop condition, the loop makes some number [k] of
    iterations, the condition holds before each of them and fails after the
    last, the function returns what the variables hold then, and [k] plus
    the number of bytes left unread is at most the length [n] of the buffer
    (every iteration is paid for by a byte read), so [k <= n]. *)
Theorem readDomainName_terminates_within_length (requestBuffer : Buffer) :
  exists k : nat,
    k <= List.length requestBuffer /\
    (forall j, j < k ->
       read_cond (Nat.iter j read_iter (read_init requestBuffer)) = true) /\
    read_cond (Nat.iter k read_iter (read_init requestBuffer)) = false /\
    (let st := Nat.iter k read_iter (read_init requestBuffer) in
     readDomainName requestBuffer = (rs_domainName st, rs_err st, rs_buf st) /\
     k + List.length (rs_buf st) <= List.length requestBuffer).
Proof.
  pose proof (read_init_measure requestBuffer) as Hinit.
  destruct (readDomainName_loop_iterations _ (read_init requestBuffer) (Nat.le_refl _))
    as (k & Hlt & Hstop & Hres & Hbound).
  exists k. split; [|split; [|split; [|split]]].
  - lia.
  - exact Hlt.
  - exact Hstop.
  - rewrite readDomainName_read_init, Hres. reflexivity.
  - unfold read_measure in Hbound at 1. lia.
Qed.

(** ** The resolver *)

Lemma HasPrefix_spec (s prefix : string) :
  HasPrefix s prefix = true <-> exists post, s = (prefix ++ post)%string.
Proof.
  revert s. induction prefix as [|p prefix IH]; intros s; cbn.
  - split; [intros _; now exists s | reflexivity].
  - destruct s as [|c s]; cbn.
    + split; [discriminate | intros [post H]; discriminate].
    + rewrite andb_true_iff, Ascii.eqb_eq, IH. split.
      * intros [-> [post ->]]. now exists post.
      * intros [post H]. injection H as -> ->. split; [reflexivity | now exists post].
Qed.

(** [Contains] decides literal substring containment. *)
Lemma Contains_spec (s substr : string) :
  Contains s substr = true <->
  exists pre post, s = (pre ++ substr ++ post)%string.
Proof.
  induction s as [|c s IH]; cbn [Contains]; rewrite orb_true_iff, HasPrefix_spec.
  - split.
    + intros [[post H] | H]; [now exists EmptyString, post | discriminate].
    + intros [[|c pre] [post H]]; [left; now exists post | discriminate].
  - rewrite IH. split.
    + intros [[post H] | (pre & post & H)].
      * now exists EmptyString, post.
      * exists (String c pre), post. cbn. now rewrite H.
    + intros [[|c' pre] [post H]].
      * left. now exists post.
      * right. injection H as -> H. now exists pre, post.
Qed.

Lemma slice_12_16_of_16 (a : IP) :
  List.length a = 16 -> slice a 12 16 = Some (last4 a).
Proof.
  intros Hlen. unfold slice, last4. rewrite Hlen. cbn [Nat.leb andb Nat.sub].
  f_equal. apply firstn_all2. rewrite length_skipn. lia.
Qed.

Lemma slice_12_16_short (a : IP) :
  List.length a < 16 -> slice a 12 16 = None.
Proof.
  intros Hlen. unfold slice.
  destruct (16 <=? List.length a)%nat eqn:H; [apply Nat.leb_le in H; lia | reflexivity].
Qed.

Lemma dbLookup_range_all_16 (queryName : string) (names : list Name) :
  (forall name, In name names -> matches queryName name = true ->
                List.length (Name_Address name) = 16) ->
  forall acc,
    dbLookup_range queryName names acc =
    Some (acc ++ map (fun name => answer_with (last4 (Name_Address name)) name)
                     (filter (matches queryName) names)).
Proof.
  induction names as [|name names IH]; intros Hok acc; cbn [dbLookup_range filter map].
  - now rewrite app_nil_r.
  - fold (matches queryName name). destruct (matches queryName name) eqn:Hm.
    + rewrite slice_12_16_of_16 by (apply Hok; [now left | exact Hm]).
      rewrite IH by (intros n Hn; apply Hok; now right).
      cbn [map]. now rewrite <- app_assoc.
    + apply IH. intros n Hn; apply Hok; now right.
Qed.

Lemma dbLookup_range_short (queryName : string) (names : list Name) (name : Name) :
  In name names -> matches queryName name = true ->
  List.length (Name_Address name) < 16 ->
  forall acc, dbLookup_range queryName names acc = None.
Proof.
  intros Hin Hm Hshort. induction names as [|n names IH]; intros acc; [contradiction|].
  cbn [dbLookup_range]. fold (matches queryName n).
  destruct Hin as [-> | Hin].
  - now rewrite Hm, slice_12_16_short.
  - destruct (matches queryName n); [destruct (slice _ 12 16)|]; auto.
Qed.

(** C7. A question that is not of type A, or not of class INET, resolves to
    three empty sections, whatever [GetNames] returned; the result is a
    normal return. *)
Theorem dbLookup_not_A_INET_empty (got : names_result) (q : DNSResourceRecord) :
  Type_ q <> TypeA \/ Class_ q <> ClassINET ->
  dbLookup got q = Some ([], [], []).
Proof.
  intros Hq. unfold dbLookup. destruct got as [names err].
  destruct (is_nil err); cbn [negb]; [|reflexivity].
  destruct (N.eqb_spec (Type_ q) TypeA) as [Ht|Ht]; cbn [negb orb]; [|reflexivity].
  destruct (N.eqb_spec (Class_ q) ClassINET) as [Hc|Hc]; cbn [negb]; [|reflexivity].
  destruct Hq; contradiction.
Qed.

Lemma dbLookup_not_A_INET_empty_witness :
  dbLookup ([mkName "example.com" (repeat zero 16)], None)
           (mkRR "example.com" 28 1 0 0 []) = Some ([], [], []).
Proof.
  apply dbLookup_not_A_INET_empty. left. cbn. discriminate.
Defined.

(** C8. When [GetNames] returns an error, [dbLookup] returns three empty
    sections for the question, as a normal return; and a handler all of whose
    lookups meet a failing store goes through its resolving loop with the
    sections it had. *)
Theorem dbLookup_store_error_empty :
  (forall (names : list Name) (e : error) (q : DNSResourceRecord),
     dbLookup (names, Some e) q = Some ([], [], [])) /\
  (forall (names : nat -> list Name) (e : nat -> error)
          (qs : list DNSResourceRecord) (idx : nat) (acc : sections),
     resolveQuestions (fun k => (names k, Some (e k))) idx qs acc = Some acc).
Proof.
  split; [reflexivity|].
  intros names e qs. induction qs as [|q qs IH]; intros idx acc; cbn; [reflexivity|].
  destruct acc as [[ans auth] add]. rewrite !app_nil_r. apply IH.
Qed.

Lemma slice_12_16_None (a : IP) : slice a 12 16 = None -> List.length a < 16.
Proof.
  unfold slice. destruct (16 <=? List.length a)%nat eqn:H; [discriminate|].
  intros _. now apply Nat.leb_gt in H.
Qed.

Lemma dbLookup_range_None (queryName : string) (names : list Name) :
  forall acc, dbLookup_range queryName names acc = None ->
  exists name, In name names /\ matches queryName name = true /\
               List.length (Name_Address name) < 16.
Proof.
  induction names as [|n names IH]; intros acc; cbn [dbLookup_range]; [discriminate|].
  fold (matches queryName n). destruct (matches queryName n) eqn:Hm.
  - destruct (slice (Name_Address n) 12 16) as [data|] eqn:Hs.
    + intros H. destruct (IH _ H) as (name & Hin & Hname). exists name.
      split; [now right | exact Hname].
    + intros _. exists n. split; [now left|]. split; [exact Hm|].
      now apply slice_12_16_None.
  - intros H. destruct (IH _ H) as (name & Hin & Hname). exists name.
    split; [now right | exact Hname].
Qed.

(** C9. For a type-A class-INET question, [dbLookup] needs sixteen address
    bytes in every entry whose name the queried name contains: it panics on
    the slice of bytes 12 to 16, and returns nothing, exactly on the snapshots
    that hold a matching entry with a shorter address. The [nil] of an
    unparsable address is one such. *)
Theorem dbLookup_short_address_panics (names : list Name) (q : DNSResourceRecord) :
  Type_ q = TypeA -> Class_ q = ClassINET ->
  (dbLookup (names, None) q = None <->
   exists name, In name names /\
                Contains (DomainName q) (Name_Name name) = true /\
                List.length (Name_Address name) < 16).
Proof.
  intros Ht Hc. unfold dbLookup. cbn [is_nil negb].
  rewrite Ht, Hc, !N.eqb_refl. cbn [negb orb]. split.
  - destruct (dbLookup_range _ names []) as [answers|] eqn:Hr; [discriminate|].
    intros _. exact (dbLookup_range_None _ _ _ Hr).
  - intros (name & Hin & Hm & Hshort).
    now rewrite (dbLookup_range_short _ _ name Hin Hm Hshort).
Qed.

Lemma dbLookup_short_address_panics_witness :
  dbLookup ([mkName "example.com" (repeat zero 16); mkName "bad.example.com" []], None)
           (mkRR "bad.example.com" 1 1 0 0 []) = None.
Proof.
  apply (proj2 (dbLookup_short_address_panics
                  [mkName "example.com" (repeat zero 16); mkName "bad.example.com" []]
                  (mkRR "bad.example.com" 1 1 0 0 []) eq_refl eq_refl)).
  exists (mkName "bad.example.com" []).
  split; [right; left; reflexivity|]. split; [reflexivity | cbn; lia].
Defined.

Lemma To_map (ParseIP : string -> IP) (models : list NameModel) :
  To ParseIP models =
  map (fun value => mkName (NameModel_Name value) (ParseIP (NameModel_Address value)))
      models.
Proof.
  set (g := fun value => mkName (NameModel_Name value) (ParseIP (NameModel_Address value))).
  assert (Hacc : forall acc,
            fold_left (fun names value => names ++ [g value]) models acc =
            acc ++ map g models).
  { induction models as [|m models IH]; intros acc; cbn [fold_left map].
    - now rewrite app_nil_r.
    - rewrite IH, <- app_assoc. reflexivity. }
  exact (Hacc []).
Qed.

(** Such a snapshot is what [To] makes of a file with an address that
    [net.ParseIP] rejects, returning [nil]. *)
Lemma dbLookup_panics_on_unparsable_address
    (ParseIP : string -> IP) (models : list NameModel) (value : NameModel)
    (q : DNSResourceRecord) :
  Type_ q = TypeA -> Class_ q = ClassINET ->
  In value models ->
  Contains (DomainName q) (NameModel_Name value) = true ->
  ParseIP (NameModel_Address value) = [] ->
  dbLookup (To ParseIP models, None) q = None.
Proof.
  intros Ht Hc Hin Hm Hnil. unfold dbLookup. cbn [is_nil negb].
  rewrite Ht, Hc, !N.eqb_refl. cbn [negb orb].
  rewrite (dbLookup_range_short (DomainName q) (To ParseIP models)
             (mkName (NameModel_Name value) (ParseIP (NameModel_Address value)))).
  - reflexivity.
  - rewrite To_map. apply in_map_iff. now exists value.
  - exact Hm.
  - cbn [Name_Address]. rewrite Hnil. cbn. lia.
Qed.

(** C4 (as amended). For a type-A class-INET question and a snapshot in
    which every entry whose name the queried name contains has a
    sixteen-byte address, [dbLookup] returns one answer for each such entry,
    all of them and in table order, with the entry's name, type A, class
    INET, TTL 31337, data length 4 and the last four bytes of the entry's
    address; the other two sections are empty. The test [Contains] is
    literal substring containment. *)
Theorem dbLookup_answers_every_match (names : list Name) (q : DNSResourceRecord) :
  Type_ q = TypeA -> Class_ q = ClassINET ->
  (forall name, In name names ->
     Contains (DomainName q) (Name_Name name) = true ->
     List.length (Name_Address name) = 16) ->
  dbLookup (names, None) q =
    Some (map (fun name =>
                 mkRR (Name_Name name) TypeA ClassINET 31337 4
                      (last4 (Name_Address name)))
              (filter (fun name => Contains (DomainName q) (Name_Name name)) names),
          [], []) /\
  (forall name,
     Contains (DomainName q) (Name_Name name) = true <->
     exists pre post, DomainName q = (pre ++ Name_Name name ++ post)%string).
Proof.
  intros Ht Hc Hok. split; [|intros name; apply Contains_spec].
  unfold dbLookup. cbn [is_nil negb]. rewrite Ht, Hc, !N.eqb_refl. cbn [negb orb].
  now rewrite (dbLookup_range_all_16 _ _ Hok).
Qed.

Lemma dbLookup_answers_every_match_witness :
  dbLookup (example_names, None) (mkRR "foo.example.com" 1 1 0 0 []) =
    Some ([mkRR "example.com" 1 1 31337 4 (map ascii_of_N [1; 2; 3; 4]%N);
           mkRR "foo.example.com" 1 1 31337 4 (map ascii_of_N [5; 6; 7; 8]%N)],
          [], []).
Proof.
  refine (proj1 (dbLookup_answers_every_match example_names
                   (mkRR "foo.example.com" 1 1 0 0 []) eq_refl eq_refl _)).
  intros name Hin _. cbn in Hin.
  destruct Hin as [<- | [<- | [<- | []]]]; reflexivity.
Defined.

(** The claim as the spec states it, for every snapshot, fails where a
    matching entry has the [nil] address of an unparsable string: there is one
    matching entry and [dbLookup] returns no answer for it. *)
Lemma dbLookup_no_answer_for_nil_address :
  let names := [mkName "example.com" []] in
  let q := mkRR "www.example.com" 1 1 0 0 [] in
  Type_ q = TypeA /\ Class_ q = ClassINET /\
  filter (fun name => Contains (DomainName q) (Name_Name name)) names = names /\
  dbLookup (names, None) q <>
    Some (map (fun name =>
                 mkRR (Name_Name name) TypeA ClassINET 31337 4
                      (last4 (Name_Address name)))
              (filter (fun name => Contains (DomainName q) (Name_Name name)) names),
          [], []).
Proof.
  cbv zeta. repeat split. discriminate.
Qed.

(** ** The name codec *)

(** C3 (the code departs from it). [strings.Split] of the empty name is one
    empty label, so [writeDomainName] writes a zero length byte for it and
    then the terminator: two zero bytes, not one. *)
Theorem writeDomainName_empty_name_two_bytes (responseBuffer : Buffer) :
  writeDomainName responseBuffer "" = (responseBuffer ++ [zero; zero], None).
Proof.
  unfold writeDomainName. cbn. unfold write_label, WriteByte, Write_bytes. cbn.
  now rewrite app_nil_r, <- app_assoc.
Qed.

Lemma writeDomainName_nil_empty :
  writeDomainName [] "" = ([zero; zero], None).
Proof. reflexivity. Qed.

Lemma write_labels_app (labels : list string) (buf : Buffer) :
  fold_left write_label labels buf = buf ++ flat_map label_bytes labels.
Proof.
  revert buf. induction labels as [|l labels IH]; intros buf; cbn [fold_left flat_map].
  - now rewrite app_nil_r.
  - rewrite IH. unfold write_label, WriteByte, Write_bytes, label_bytes.
    rewrite <- !app_assoc. reflexivity.
Qed.

Lemma writeDomainName_bytes (buf : Buffer) (domainName : string) :
  writeDomainName buf domainName =
  (buf ++ flat_map label_bytes (Split domainName ".") ++ [zero], None).
Proof.
  unfold writeDomainName, WriteByte. rewrite write_labels_app, <- app_assoc. reflexivity.
Qed.

Lemma readDomainName_read_from (buf : Buffer) :
  readDomainName buf =
  (rs_domainName (read_from buf ""), rs_err (read_from buf ""), rs_buf (read_from buf "")).
Proof. unfold readDomainName, read_from. now destruct (ReadByte buf) as [[b err] buf']. Qed.

Lemma read_from_terminator (rest : Buffer) (domainName : string) :
  read_from (zero :: rest) domainName = mkReadState zero None rest domainName.
Proof. unfold read_from. cbn [ReadByte]. now rewrite readDomainName_loop_eq. Qed.

Lemma byte_of_int_small (n : nat) : n <= 255 -> nat_of_ascii (byte_of_int n) = n.
Proof.
  intros Hn. unfold byte_of_int. rewrite Nat.mod_small by lia.
  apply nat_ascii_embedding. lia.
Qed.

Lemma byte_of_int_nonzero (n : nat) :
  1 <= n <= 255 -> Ascii.eqb (byte_of_int n) zero = false.
Proof.
  intros Hn. apply Ascii.eqb_neq. intros H.
  apply (f_equal nat_of_ascii) in H. rewrite byte_of_int_small in H by lia.
  cbn in H. lia.
Qed.

Lemma length_list_ascii_of_string (s : string) :
  List.length (list_ascii_of_string s) = String.length s.
Proof. induction s as [|c s IH]; cbn; [reflexivity | now rewrite IH]. Qed.

Lemma read_from_label (label : string) (rest : Buffer) (domainName : string) :
  1 <= String.length label <= 255 ->
  read_from (label_bytes label ++ rest) domainName =
  read_from rest (add_label domainName label).
Proof.
  intros Hlen. unfold read_from at 1, label_bytes. cbn [app ReadByte].
  rewrite readDomainName_loop_eq. unfold read_cond. cbn [rs_b rs_err is_nil].
  rewrite byte_of_int_nonzero by exact Hlen. cbn [negb andb].
  unfold read_iter, Next. cbn [rs_b rs_buf rs_domainName].
  rewrite byte_of_int_small by lia.
  rewrite <- (length_list_ascii_of_string label).
  rewrite firstn_app, Nat.sub_diag, firstn_all, firstn_O, app_nil_r.
  rewrite skipn_app, Nat.sub_diag, skipn_all, skipn_O, app_nil_l.
  rewrite string_of_list_ascii_of_string.
  unfold read_from, add_label. now destruct (ReadByte rest) as [[b e] r].
Qed.

Lemma read_from_labels (labels : list string) (rest : Buffer) :
  Forall (fun label => 1 <= String.length label <= 255) labels ->
  forall domainName,
    read_from (flat_map label_bytes labels ++ zero :: rest) domainName =
    mkReadState zero None rest (fold_left add_label labels domainName).
Proof.
  induction 1 as [|l labels Hl _ IH]; intros domainName; cbn [flat_map fold_left app].
  - apply read_from_terminator.
  - rewrite <- app_assoc, read_from_label by exact Hl. apply IH.
Qed.

Lemma string_app_assoc (a b c : string) :
  ((a ++ b) ++ c)%string = (a ++ b ++ c)%string.
Proof. induction a as [|x a IH]; cbn; [reflexivity | now rewrite IH]. Qed.

Lemma string_length_app (a b : string) :
  String.length (a ++ b) = String.length a + String.length b.
Proof. induction a as [|x a IH]; cbn; [reflexivity | now rewrite IH]. Qed.

Lemma concat_dot_cons (a : string) (l : string) (ls : list string) :
  String.concat "." (a :: l :: ls) = (a ++ "." ++ String.concat "." (l :: ls))%string.
Proof. reflexivity. Qed.

(** From a name that is not empty, labels none of which is empty are joined
    on with dots. *)
Lemma add_labels_concat (labels : list string) :
  Forall (fun label => 1 <= String.length label <= 255) labels ->
  forall domainName, 1 <= String.length domainName ->
    fold_left add_label labels domainName = String.concat "." (domainName :: labels).
Proof.
  induction 1 as [|l labels Hl _ IH]; intros domainName Hne; cbn [fold_left].
  - reflexivity.
  - unfold add_label at 2.
    destruct (Nat.eqb_spec (String.length domainName) 0) as [H0|_]; [lia|].
    rewrite IH by (rewrite string_length_app; lia).
    destruct labels as [|x xs]; [reflexivity|].
    rewrite !concat_dot_cons, !string_app_assoc. reflexivity.
Qed.

Lemma add_labels_from_empty (labels : list string) :
  Forall (fun label => 1 <= String.length label <= 255) labels ->
  fold_left add_label labels "" = String.concat "." labels.
Proof.
  intros Hall. destruct Hall as [|l labels Hl Hall]; [reflexivity|].
  cbn [fold_left]. unfold add_label at 2. cbn [String.length Nat.eqb].
  apply add_labels_concat; [exact Hall | lia].
Qed.

Lemma Split_not_nil (s : string) (sep : ascii) : Split s sep <> [].
Proof.
  destruct s as [|c s]; cbn; [discriminate|].
  destruct (Ascii.eqb c sep); [discriminate|]. destruct (Split s sep); discriminate.
Qed.

(** Joining the pieces of [Split] gives the string back. *)
Lemma concat_Split (s : string) : String.concat "." (Split s ".") = s.
Proof.
  induction s as [|c s IH]; [reflexivity|]. cbn [Split].
  destruct (Ascii.eqb_spec c ".") as [->|Hc].
  - pose proof (Split_not_nil s ".") as Hne.
    destruct (Split s ".") as [|p ps]; [contradiction|].
    rewrite concat_dot_cons, IH. reflexivity.
  - pose proof (Split_not_nil s ".") as Hne.
    destruct (Split s ".") as [|p ps]; [contradiction|].
    rewrite <- IH. destruct ps; reflexivity.
Qed.

(** C2 (as amended). A name all of whose labels have between 1 and 255
    bytes, and the empty name, is decoded back from its encoding, without
    error, whatever follows the encoding in the buffer. The decoder leaves
    what follows unread, and after the empty name one zero byte more. *)
Theorem name_roundtrip_nonempty_labels (domainName : string) (trailing : list byte) :
  domainName = "" \/
  Forall (fun label => 1 <= String.length label <= 255) (Split domainName ".") ->
  readDomainName (fst (writeDomainName [] domainName) ++ trailing) =
  (domainName, None,
   if String.eqb domainName "" then zero :: trailing else trailing).
Proof.
  intros [-> | Hall].
  - rewrite writeDomainName_nil_empty. cbn [fst app String.eqb].
    rewrite readDomainName_read_from, read_from_terminator. reflexivity.
  - rewrite writeDomainName_bytes. cbn [fst app].
    rewrite <- app_assoc. cbn [app].
    rewrite readDomainName_read_from, read_from_labels by exact Hall.
    cbn [rs_domainName rs_err rs_buf].
    rewrite add_labels_from_empty, concat_Split by exact Hall.
    destruct (String.eqb_spec domainName "") as [->|_]; [|reflexivity].
    cbn in Hall. inversion Hall as [|? ? Hl _]. cbn in Hl. lia.
Qed.

Lemma name_roundtrip_nonempty_labels_witness :
  readDomainName (fst (writeDomainName [] "www.example.com") ++ [zero; "001"%char]) =
  ("www.example.com", None, [zero; "001"%char]).
Proof.
  apply (name_roundtrip_nonempty_labels "www.example.com" [zero; "001"%char]).
  right. cbn. repeat (apply Forall_cons; [cbn; lia|]). apply Forall_nil.
Defined.

(** The claim as the spec states it, empty labels included, fails: the
    labels of ["a..b"] have at most 255 bytes each, the empty one is written
    as a zero length byte, and the decoder stops there. *)
Lemma name_roundtrip_fails_on_empty_label :
  Forall (fun label => String.length label <= 255) (Split "a..b" ".") /\
  readDomainName (fst (writeDomainName [] "a..b")) =
    ("a", None, ["001"%char; "b"%char; zero]) /\
  fst (fst (readDomainName (fst (writeDomainName [] "a..b")))) <> "a..b".
Proof.
  split; [cbn; repeat constructor; lia|].
  split; [reflexivity | discriminate].
Qed.

(** ** The encoder, section by section *)

Lemma fold_left_appending {A : Type} (f : Buffer -> A -> Buffer) (g : A -> list byte) :
  (forall buf x, f buf x = buf ++ g x) ->
  forall xs buf, fold_left f xs buf = buf ++ flat_map g xs.
Proof.
  intros Hf xs. induction xs as [|x xs IH]; intros buf; cbn [fold_left flat_map].
  - now rewrite app_nil_r.
  - now rewrite IH, Hf, <- app_assoc.
Qed.

Lemma Write_header_bytes (buf : Buffer) (h : DNSHeader) :
  Write_header buf h = buf ++ header_bytes h.
Proof.
  unfold Write_header, header_bytes, Write_uint16, u16_bytes.
  now rewrite <- !app_assoc.
Qed.

Lemma write_question_bytes (buf : Buffer) (r : DNSResourceRecord) :
  write_question buf r = buf ++ question_bytes r.
Proof.
  unfold write_question, question_bytes, name_bytes. rewrite writeDomainName_bytes.
  unfold Write_uint16, u16_bytes. now rewrite <- !app_assoc.
Qed.

Lemma write_record_bytes (buf : Buffer) (r : DNSResourceRecord) :
  write_record buf r = buf ++ record_bytes r.
Proof.
  unfold write_record, record_bytes, name_bytes. rewrite writeDomainName_bytes.
  unfold Write_uint16, Write_uint32, Write_bytes, u16_bytes, u32_bytes.
  now rewrite <- !app_assoc.
Qed.

(** The response is the header followed by the four sections, entry by
    entry. *)
Lemma encodeResponse_sections (h : DNSHeader)
    (qs ans auth add : list DNSResourceRecord) :
  encodeResponse h qs ans auth add =
  header_bytes h ++ flat_map question_bytes qs ++ flat_map record_bytes ans ++
  flat_map record_bytes auth ++ flat_map record_bytes add.
Proof.
  unfold encodeResponse.
  rewrite !(fold_left_appending _ _ write_record_bytes).
  rewrite (fold_left_appending _ _ write_question_bytes).
  rewrite Write_header_bytes. cbn [app]. now rewrite <- !app_assoc.
Qed.

(** *** Sixteen-bit fields on the wire *)

Lemma be16_lt (hi lo : byte) : (be16 hi lo < 2 ^ 16)%N.
Proof.
  unfold be16. pose proof (N_ascii_bounded hi). pose proof (N_ascii_bounded lo).
  change (2 ^ 16)%N with 65536%N. lia.
Qed.

Lemma u16_bytes_be16 (hi lo : byte) : u16_bytes (be16 hi lo) = [hi; lo].
Proof.
  unfold u16_bytes, be16.
  pose proof (N_ascii_bounded hi) as Hh. pose proof (N_ascii_bounded lo) as Hl.
  change (2 ^ 8)%N with 256%N.
  rewrite N.div_add_l, (N.div_small (N_of_ascii lo)), N.add_0_r by lia.
  rewrite (N.mod_small (N_of_ascii hi)) by lia.
  rewrite N.add_comm, N.Div0.mod_add, (N.mod_small (N_of_ascii lo)) by lia.
  now rewrite !ascii_N_embedding.
Qed.

Lemma be16_u16_bytes (v : N) :
  (v < 2 ^ 16)%N ->
  match u16_bytes v with
  | [hi; lo] => be16 hi lo = v
  | _ => False
  end.
Proof.
  intros Hv. unfold u16_bytes, be16. change (2 ^ 16)%N with 65536%N in Hv.
  change (2 ^ 8)%N with 256%N.
  rewrite !N_ascii_embedding by (apply N.mod_lt; lia).
  rewrite (N.mod_small (v / 256)) by (apply N.Div0.div_lt_upper_bound; lia).
  pose proof (N.div_mod v 256). lia.
Qed.

(** Header round trip: the twelve bytes written for a header of sixteen-bit
    fields decode to the same header. *)
Lemma binary_Read_header_bytes (h : DNSHeader) (rest : list byte) :
  header_in_range h ->
  binary_Read_header (header_bytes h ++ rest) = (h, None, rest).
Proof.
  destruct h as [i f q a u d]. unfold header_in_range.
  cbn [TransactionID Flags NumQuestions NumAnswers NumAuthorities NumAdditionals].
  intros (Hi & Hf & Hq & Ha & Hu & Hd).
  pose proof (be16_u16_bytes i Hi) as Ei. pose proof (be16_u16_bytes f Hf) as Ef.
  pose proof (be16_u16_bytes q Hq) as Eq. pose proof (be16_u16_bytes a Ha) as Ea.
  pose proof (be16_u16_bytes u Hu) as Eu. pose proof (be16_u16_bytes d Hd) as Ed.
  unfold header_bytes, u16_bytes in *. cbn [TransactionID Flags NumQuestions NumAnswers
    NumAuthorities NumAdditionals app binary_Read_header].
  now rewrite Ei, Ef, Eq, Ea, Eu, Ed.
Qed.

Lemma binary_Read_header_in_range (buf : Buffer) :
  header_in_range (fst (fst (binary_Read_header buf))).
Proof.
  assert (Hz : header_in_range zeroHeader) by (cbv; repeat split; reflexivity).
  do 12 (destruct buf as [|? buf]; [exact Hz|]).
  cbn. repeat split; apply be16_lt.
Qed.

(** ** The handler *)

Lemma decodeQuestions_length (n : nat) :
  forall buf qs buf',
    decodeQuestions n buf = Some (qs, buf') -> List.length qs = n.
Proof.
  induction n as [|n IH]; intros buf qs buf'; cbn [decodeQuestions].
  - intros H; injection H as <- _. reflexivity.
  - destruct (readDomainName buf) as [[name err] buf1].
    unfold Next. destruct (Uint16 _) as [t|]; [|discriminate].
    destruct (Uint16 _) as [c|]; [|discriminate].
    destruct (decodeQuestions n _) as [[records buf3]|] eqn:Hrec; [|discriminate].
    intros H; injection H as <- _. cbn. f_equal. eapply IH, Hrec.
Qed.

Lemma decodeRequest_header (requestBytes : list byte) (qh : DNSHeader)
    (qs : list DNSResourceRecord) :
  decodeRequest requestBytes = Some (qh, qs) ->
  qh = fst (fst (binary_Read_header requestBytes)) /\
  N.of_nat (List.length qs) = NumQuestions qh.
Proof.
  unfold decodeRequest. destruct (binary_Read_header requestBytes) as [[h err] buf].
  destruct (decodeQuestions _ buf) as [[records buf']|] eqn:Hdec; [|discriminate].
  intros H; injection H as <- <-. split; [reflexivity|].
  apply decodeQuestions_length in Hdec. rewrite Hdec. apply N2Nat.id.
Qed.

Lemma dbLookup_authority_additional (got : names_result) (q : DNSResourceRecord)
    (ans auth add : list DNSResourceRecord) :
  dbLookup got q = Some (ans, auth, add) -> auth = [] /\ add = [].
Proof.
  unfold dbLookup. destruct got as [names err].
  destruct (negb (is_nil err)); [intros H; injection H as _ <- <-; now split|].
  destruct (_ || _); [intros H; injection H as _ <- <-; now split|].
  destruct (dbLookup_range _ _ _); [|discriminate].
  intros H; injection H as _ <- <-; now split.
Qed.

Lemma resolveQuestions_authority_additional (GetNames : nat -> names_result)
    (qs : list DNSResourceRecord) :
  forall idx ans0 auth0 add0 ans auth add,
    resolveQuestions GetNames idx qs (ans0, auth0, add0) = Some (ans, auth, add) ->
    auth = auth0 /\ add = add0.
Proof.
  induction qs as [|q qs IH]; intros idx ans0 auth0 add0 ans auth add;
    cbn [resolveQuestions].
  - intros H; injection H as _ <- <-. now split.
  - destruct (dbLookup (GetNames idx) q) as [[[a u] d]|] eqn:Hl; [|discriminate].
    apply dbLookup_authority_additional in Hl as [-> ->].
    rewrite !app_nil_r. apply IH.
Qed.

Lemma handleDNSClient_response (GetNames : nat -> names_result)
    (requestBytes : list byte) (qh : DNSHeader)
    (qs ans auth add : list DNSResourceRecord) :
  decodeRequest requestBytes = Some (qh, qs) ->
  resolveQuestions GetNames 0 qs ([], [], []) = Some (ans, auth, add) ->
  handleDNSClient GetNames requestBytes =
  Some (header_bytes (responseHeader qh ans auth add) ++
        flat_map question_bytes qs ++ flat_map record_bytes ans ++
        flat_map record_bytes auth ++ flat_map record_bytes add).
Proof.
  intros Hd Hr. unfold handleDNSClient. rewrite Hd, Hr.
  now rewrite encodeResponse_sections.
Qed.

Lemma uint16_of_int_lt (n : nat) : (uint16_of_int n < 2 ^ 16)%N.
Proof. unfold uint16_of_int. apply N.mod_lt. discriminate. Qed.

Lemma responseHeader_in_range (qh : DNSHeader)
    (ans auth add : list DNSResourceRecord) :
  header_in_range qh -> header_in_range (responseHeader qh ans auth add).
Proof.
  intros (Hi & _ & Hq & _). unfold header_in_range, responseHeader.
  cbn [TransactionID Flags NumQuestions NumAnswers NumAuthorities NumAdditionals].
  repeat split; try apply uint16_of_int_lt; assumption || reflexivity.
Qed.

(** C5 (as amended). When the handler builds a response, from the questions
    [qs] it decoded and the records [ans], [auth], [add] its lookups
    returned, the response is a header followed by one entry for each
    question and each record, the twelve header bytes decode to the header
    the handler built, and in it: the question count is the number of
    question entries written; the answer count is the number of answer
    records written modulo 2^16, the width of the field, hence that number
    when there are fewer than 65536 of them; the authority and additional
    counts are the numbers of those records, which are none. *)
Theorem response_counts_match_sections (GetNames : nat -> names_result)
    (requestBytes : list byte) (qh : DNSHeader)
    (qs ans auth add : list DNSResourceRecord) :
  decodeRequest requestBytes = Some (qh, qs) ->
  resolveQuestions GetNames 0 qs ([], [], []) = Some (ans, auth, add) ->
  let h := responseHeader qh ans auth add in
  let body := flat_map question_bytes qs ++ flat_map record_bytes ans ++
              flat_map record_bytes auth ++ flat_map record_bytes add in
  handleDNSClient GetNames requestBytes = Some (header_bytes h ++ body) /\
  binary_Read_header (header_bytes h ++ body) = (h, None, body) /\
  NumQuestions h = N.of_nat (List.length qs) /\
  NumAnswers h = (N.of_nat (List.length ans) mod 2 ^ 16)%N /\
  ((N.of_nat (List.length ans) < 2 ^ 16)%N ->
   NumAnswers h = N.of_nat (List.length ans)) /\
  NumAuthorities h = N.of_nat (List.length auth) /\
  NumAdditionals h = N.of_nat (List.length add).
Proof.
  intros Hd Hr h body.
  pose proof (decodeRequest_header _ _ _ Hd) as [Hqh Hlen].
  pose proof (resolveQuestions_authority_additional _ _ _ _ _ _ _ _ _ Hr) as [Hauth Hadd].
  assert (Hrange : header_in_range h).
  { apply responseHeader_in_range. rewrite Hqh. apply binary_Read_header_in_range. }
  split; [now apply handleDNSClient_response|].
  split; [now apply binary_Read_header_bytes|].
  split; [symmetry; exact Hlen|].
  split; [reflexivity|].
  split.
  { intros Hlt. subst h. cbn [responseHeader NumAnswers]. unfold uint16_of_int.
    now apply N.mod_small. }
  subst h auth add. split; reflexivity.
Qed.

Lemma response_counts_match_sections_witness :
  let qs := [mkRR "foo.example.com" 1 1 0 0 []] in
  let ans := [mkRR "example.com" 1 1 31337 4 (map ascii_of_N [1; 2; 3; 4]%N);
              mkRR "foo.example.com" 1 1 31337 4 (map ascii_of_N [5; 6; 7; 8]%N)] in
  let h := mkHeader 4660 32768 1 2 0 0 in
  let body := flat_map question_bytes qs ++ flat_map record_bytes ans ++ [] ++ [] in
  handleDNSClient (fun _ => (example_names, None)) example_request =
    Some (header_bytes h ++ body) /\
  binary_Read_header (header_bytes h ++ body) = (h, None, body) /\
  NumQuestions h = N.of_nat (List.length qs) /\
  NumAnswers h = (N.of_nat (List.length ans) mod 2 ^ 16)%N /\
  ((N.of_nat (List.length ans) < 2 ^ 16)%N ->
   NumAnswers h = N.of_nat (List.length ans)) /\
  NumAuthorities h = 0%N /\
  NumAdditionals h = 0%N.
Proof.
  exact (response_counts_match_sections (fun _ => (example_names, None))
           example_request (mkHeader 4660 256 1 0 0 0)
           [mkRR "foo.example.com" 1 1 0 0 []]
           [mkRR "example.com" 1 1 31337 4 (map ascii_of_N [1; 2; 3; 4]%N);
            mkRR "foo.example.com" 1 1 31337 4 (map ascii_of_N [5; 6; 7; 8]%N)]
           [] [] eq_refl eq_refl).
Defined.

Lemma filter_repeat_true {A : Type} (f : A -> bool) (x : A) (n : nat) :
  f x = true -> filter f (repeat x n) = repeat x n.
Proof. intros Hx. induction n as [|n IH]; cbn; [reflexivity | now rewrite Hx, IH]. Qed.

(** The claim as the spec states it, for every response, fails when a
    section outgrows its sixteen-bit count: with 65536 table entries matching
    the one question, 65536 answer records are serialized under a header
    whose answer count is 0. *)
Lemma response_answer_count_wraps :
  let qs := [mkRR "a" 1 1 0 0 []] in
  let ans := repeat (mkRR "a" 1 1 31337 4 (repeat zero 4)) (N.to_nat 65536) in
  let h := mkHeader 1 32768 1 0 0 0 in
  handleDNSClient (fun _ => (many_names, None)) one_question_request =
    Some (header_bytes h ++ flat_map question_bytes qs ++ flat_map record_bytes ans) /\
  N.of_nat (List.length ans) = 65536%N /\
  NumAnswers h = 0%N /\
  NumAnswers h <> N.of_nat (List.length ans).
Proof.
  intros qs ans h.
  assert (Hlen : N.of_nat (List.length ans) = 65536%N).
  { unfold ans. rewrite repeat_length. apply N2Nat.id. }
  split; [|split; [exact Hlen | split; [reflexivity | rewrite Hlen; discriminate]]].
  assert (Hres : resolveQuestions (fun _ => (many_names, None)) 0 qs ([], [], []) =
                 Some (ans, [], [])).
  { unfold qs. cbn [resolveQuestions]. unfold dbLookup.
    cbn [is_nil negb Type_ Class_ DomainName]. change (N.eqb 1 TypeA) with true.
    change (N.eqb 1 ClassINET) with true. cbn [negb orb].
    rewrite dbLookup_range_all_16.
    - unfold many_names. rewrite filter_repeat_true by reflexivity.
      rewrite map_repeat. reflexivity.
    - intros name Hin _. unfold many_names in Hin.
      apply repeat_spec in Hin. subst name. reflexivity. }
  assert (Hdec : decodeRequest one_question_request =
                 Some (mkHeader 1 256 1 0 0 0, qs)) by reflexivity.
  rewrite (handleDNSClient_response _ _ _ _ _ _ _ Hdec Hres).
  unfold responseHeader, uint16_of_int.
  cbn [NumQuestions TransactionID List.length N.of_nat]. rewrite Hlen.
  cbn [flat_map]. rewrite !app_nil_r. reflexivity.
Qed.

(** C1 (the code departs from it). On either datagram, both of the size the
    listener hands over, [readDomainName] stops at the end of the buffer
    with [io.EOF], which is logged, and the [Uint16] of the next line indexes
    the empty slice [Next(2)] returns: the handler panics, whatever the name
    store holds, and nothing is sent. *)
Theorem handleDNSClient_panics_on_exhausted_buffer (GetNames : nat -> names_result) :
  List.length overcounted_request = UDPMaxMessageSizeBytes /\
  handleDNSClient GetNames overcounted_request = None /\
  List.length overlong_label_request = UDPMaxMessageSizeBytes /\
  handleDNSClient GetNames overlong_label_request = None.
Proof.
  assert (H1 : decodeRequest overcounted_request = None) by (vm_compute; reflexivity).
  assert (H2 : decodeRequest overlong_label_request = None) by (vm_compute; reflexivity).
  unfold handleDNSClient. rewrite H1, H2. repeat split; reflexivity.
Qed.

(** ** Echoing the request *)

Lemma Split_dot_free (label : string) :
  dot_free label -> Split label "." = [label].
Proof.
  unfold dot_free. induction label as [|c label IH]; cbn; [reflexivity|].
  intros Hd. destruct (Ascii.eqb_spec c ".") as [->|_]; [exfalso; apply Hd; now left|].
  rewrite IH; [reflexivity | intros H; apply Hd; now right].
Qed.

Lemma Split_app_dot (label rest : string) :
  dot_free label ->
  Split (label ++ "." ++ rest) "." = label :: Split rest ".".
Proof.
  unfold dot_free. induction label as [|c label IH]; cbn; [reflexivity|].
  intros Hd. destruct (Ascii.eqb_spec c ".") as [->|_]; [exfalso; apply Hd; now left|].
  cbn in IH. rewrite IH; [reflexivity | intros H; apply Hd; now right].
Qed.

Lemma Split_concat (labels : list string) :
  labels <> [] -> Forall dot_free labels ->
  Split (String.concat "." labels) "." = labels.
Proof.
  intros Hne Hall. induction Hall as [|l labels Hl Hall IH]; [contradiction|].
  destruct labels as [|x xs].
  - cbn. now apply Split_dot_free.
  - rewrite concat_dot_cons, Split_app_dot by exact Hl.
    f_equal. apply IH. discriminate.
Qed.

Lemma Forall_label_ok (labels : list string) :
  Forall label_ok labels ->
  Forall (fun label => 1 <= String.length label <= 255) labels /\
  Forall dot_free labels.
Proof.
  induction 1 as [|l labels [Hlen Hd] _ [IH1 IH2]]; split; constructor; auto.
Qed.

Lemma wire_labels_bytes (labels : list string) :
  Forall (fun label => 1 <= String.length label <= 255) labels ->
  flat_map (fun label => ascii_of_nat (String.length label) :: list_ascii_of_string label)
           labels = flat_map label_bytes labels.
Proof.
  induction 1 as [|l labels Hl _ IH]; cbn [flat_map]; [reflexivity|].
  rewrite IH. unfold label_bytes, byte_of_int. now rewrite Nat.mod_small by lia.
Qed.

(** The handler writes a well-formed question back as it came. *)
Lemma question_bytes_decoded (w : wire_question) :
  wire_question_ok w -> question_bytes (decoded_question w) = wire_question_bytes w.
Proof.
  intros [Hne Hall]. apply Forall_label_ok in Hall as [Hlen Hdot].
  unfold question_bytes, decoded_question, wire_question_bytes, name_bytes.
  cbn [DomainName Type_ Class_].
  rewrite Split_concat, !u16_bytes_be16, wire_labels_bytes by assumption.
  now rewrite <- app_assoc.
Qed.

Lemma decodeQuestions_wire (ws : list wire_question) (trailing : list byte) :
  Forall wire_question_ok ws ->
  decodeQuestions (List.length ws) (flat_map wire_question_bytes ws ++ trailing) =
  Some (map decoded_question ws, trailing).
Proof.
  induction 1 as [|w ws [Hne Hall] _ IH]; [reflexivity|].
  apply Forall_label_ok in Hall as [Hlen Hdot].
  cbn [List.length flat_map decodeQuestions map].
  unfold wire_question_bytes at 1. rewrite wire_labels_bytes by exact Hlen.
  rewrite <- !app_assoc. cbn [app].
  rewrite readDomainName_read_from, read_from_labels by exact Hlen.
  cbn [rs_domainName rs_err rs_buf]. rewrite add_labels_from_empty by exact Hlen.
  unfold Next. cbn [firstn skipn Uint16]. rewrite IH. reflexivity.
Qed.

Lemma binary_Read_header_12 (header rest : list byte) :
  List.length header = 12 ->
  binary_Read_header (header ++ rest) =
  (fst (fst (binary_Read_header header)), None, rest).
Proof.
  intros Hlen. do 12 (destruct header as [|? header]; [discriminate|]).
  destruct header; [reflexivity | discriminate].
Qed.

Lemma slice_12_16_long (a : IP) :
  16 <= List.length a -> exists data, slice a 12 16 = Some data.
Proof.
  intros Hlen. unfold slice. apply Nat.leb_le in Hlen. rewrite Hlen. cbn. eauto.
Qed.

Lemma dbLookup_range_returns (queryName : string) (names : list Name) :
  Forall (fun name => 16 <= List.length (Name_Address name)) names ->
  forall acc, exists answers, dbLookup_range queryName names acc = Some answers.
Proof.
  induction 1 as [|name names Hlen _ IH]; intros acc; cbn [dbLookup_range]; [eauto|].
  destruct (Contains queryName (Name_Name name)); [|apply IH].
  destruct (slice_12_16_long _ Hlen) as [data ->]. apply IH.
Qed.

Lemma dbLookup_returns (got : names_result) (q : DNSResourceRecord) :
  (forall names, got = (names, None) ->
     Forall (fun name => 16 <= List.length (Name_Address name)) names) ->
  exists r, dbLookup got q = Some r.
Proof.
  intros Hok. unfold dbLookup. destruct got as [names [e|]]; cbn [is_nil negb]; [eauto|].
  destruct (_ || _); [eauto|].
  destruct (dbLookup_range_returns (DomainName q) names (Hok _ eq_refl) [])
    as [answers ->]. eauto.
Qed.

Lemma resolveQuestions_returns (GetNames : nat -> names_result)
    (qs : list DNSResourceRecord) :
  store_ok GetNames ->
  forall idx acc, exists r, resolveQuestions GetNames idx qs acc = Some r.
Proof.
  intros Hok. induction qs as [|q qs IH]; intros idx acc; cbn [resolveQuestions]; [eauto|].
  destruct (dbLookup_returns (GetNames idx) q (Hok idx)) as [[[a u] d] ->].
  destruct acc as [[ans auth] add]. apply IH.
Qed.

(** C6 (as amended). For a request made of a twelve-byte header, of as
    many questions as the header announces, each with at least one label and
    with labels of 1 to 255 bytes that hold no dot, and of anything after
    them, and a name store whose entries have sixteen-byte addresses or whose
    reads fail, the handler sends a response: twelve header bytes, of which
    the transaction ID is the request's, then the question section of the
    request byte for byte, then the records. *)
Theorem response_echoes_id_and_questions (GetNames : nat -> names_result)
    (header : list byte) (ws : list wire_question) (trailing : list byte) :
  List.length header = 12 ->
  NumQuestions (fst (fst (binary_Read_header header))) = N.of_nat (List.length ws) ->
  Forall wire_question_ok ws ->
  store_ok GetNames ->
  exists response_header records,
    handleDNSClient GetNames (header ++ flat_map wire_question_bytes ws ++ trailing) =
      Some (response_header ++ flat_map wire_question_bytes ws ++ records) /\
    List.length response_header = 12 /\
    firstn 2 response_header = firstn 2 header /\
    TransactionID (fst (fst (binary_Read_header response_header))) =
    TransactionID (fst (fst (binary_Read_header header))).
Proof.
  intros Hlen Hcount Hws Hstore.
  set (qh := fst (fst (binary_Read_header header))) in *.
  set (qs := map decoded_question ws).
  assert (Hdec : decodeRequest (header ++ flat_map wire_question_bytes ws ++ trailing) =
                 Some (qh, qs)).
  { unfold decodeRequest. rewrite binary_Read_header_12 by exact Hlen. fold qh.
    rewrite Hcount, Nat2N.id, decodeQuestions_wire by exact Hws. reflexivity. }
  destruct (resolveQuestions_returns GetNames qs Hstore 0 ([], [], []))
    as [[[ans auth] add] Hres].
  exists (header_bytes (responseHeader qh ans auth add)).
  exists (flat_map record_bytes ans ++ flat_map record_bytes auth ++
          flat_map record_bytes add).
  split; [|split; [reflexivity|]].
  - rewrite (handleDNSClient_response _ _ _ _ _ _ _ Hdec Hres). do 3 f_equal.
    unfold qs. clear -Hws. induction Hws as [|w ws Hw _ IH]; [reflexivity|].
    cbn [map flat_map]. now rewrite IH, question_bytes_decoded.
  - assert (Hrange : header_in_range (responseHeader qh ans auth add)).
    { apply responseHeader_in_range. apply binary_Read_header_in_range. }
    pose proof (binary_Read_header_bytes _ [] Hrange) as Hread.
    rewrite app_nil_r in Hread. rewrite Hread. cbn [fst responseHeader TransactionID].
    split; [|reflexivity].
    unfold header_bytes. cbn [responseHeader TransactionID]. unfold qh.
    do 12 (destruct header as [|? header]; [discriminate|]).
    cbn [binary_Read_header fst TransactionID]. rewrite u16_bytes_be16. reflexivity.
Qed.

Lemma response_echoes_id_and_questions_witness :
  exists response_header records,
    handleDNSClient (fun _ => (example_names, None))
      (example_header ++ flat_map wire_question_bytes example_questions ++
       repeat zero 8) =
      Some (response_header ++ flat_map wire_question_bytes example_questions ++
            records) /\
    List.length response_header = 12 /\
    firstn 2 response_header = firstn 2 example_header /\
    TransactionID (fst (fst (binary_Read_header response_header))) =
    TransactionID (fst (fst (binary_Read_header example_header))).
Proof.
  apply (response_echoes_id_and_questions (fun _ => (example_names, None))
           example_header example_questions (repeat zero 8)).
  - reflexivity.
  - reflexivity.
  - repeat (apply Forall_cons || apply Forall_nil); split; try discriminate;
      repeat (apply Forall_cons || apply Forall_nil); split;
      try (cbn; lia); intros H; cbn in H; intuition discriminate.
  - intros k names H. injection H as <-.
    repeat (apply Forall_cons || apply Forall_nil); cbn; lia.
Defined.

(** The claim as the spec states it, for every request that decodes
    without error, fails on a label that holds a dot: the one label ["a.b"]
    is decoded to the name ["a.b"], without error, and written back as the
    two labels ["a"] and ["b"]. *)
Lemma question_echo_splits_dotted_label :
  let question := map ascii_of_N [3; 97; 46; 98; 0; 0; 1; 0; 1]%N in
  let requestBytes := map ascii_of_N [0; 7; 1; 0; 0; 1; 0; 0; 0; 0; 0; 0]%N ++ question in
  readDomainName question = ("a.b", None, map ascii_of_N [0; 1; 0; 1]%N) /\
  decodeRequest requestBytes =
    Some (mkHeader 7 256 1 0 0 0, [mkRR "a.b" 1 1 0 0 []]) /\
  handleDNSClient (fun _ => ([], None)) requestBytes =
    Some (map ascii_of_N [0; 7; 128; 0; 0; 1; 0; 0; 0; 0; 0; 0]%N ++
          map ascii_of_N [1; 97; 1; 98; 0; 0; 1; 0; 1]%N) /\
  map ascii_of_N [1; 97; 1; 98; 0; 0; 1; 0; 1]%N <> question.
Proof.
  cbv zeta. repeat split; try reflexivity. discriminate.
Qed.

(** The same happens, by the two zero bytes of the empty name, to a
    question for the root: five bytes come in and six go out. *)
Example root_question_echo :
  handleDNSClient (fun _ => ([], None))
    (map ascii_of_N [0; 7; 1; 0; 0; 1; 0; 0; 0; 0; 0; 0]%N ++
     map ascii_of_N [0; 0; 2; 0; 1]%N) =
  Some (map ascii_of_N [0; 7; 128; 0; 0; 1; 0; 0; 0; 0; 0; 0]%N ++
        map ascii_of_N [0; 0; 0; 2; 0; 1]%N).
Proof. reflexivity. Qed.

(** * Further properties *)

(** ** [readDomainName] on arbitrary buffers *)

Lemma read_from_nil (domainName : string) :
  read_from [] domainName = mkReadState zero (Some EOF) [] domainName.
Proof. unfold read_from. cbn [ReadByte]. now rewrite readDomainName_loop_eq. Qed.

(** One round of the loop on any length byte that is not zero: the label is
    what [Next] finds, short or not. *)
Lemma read_from_nonzero (b : byte) (rest : Buffer) (domainName : string) :
  Ascii.eqb b zero = false ->
  read_from (b :: rest) domainName =
  read_from (skipn (nat_of_ascii b) rest)
            (add_label domainName
               (string_of_list_ascii (firstn (nat_of_ascii b) rest))).
Proof.
  intros Hb. unfold read_from at 1. cbn [ReadByte].
  rewrite readDomainName_loop_eq. unfold read_cond. cbn [rs_b rs_err is_nil].
  rewrite Hb. cbn [negb andb]. unfold read_iter, Next. cbn [rs_b rs_buf rs_domainName].
  unfold read_from, add_label.
  now destruct (ReadByte (skipn (nat_of_ascii b) rest)) as [[b' e] r].
Qed.

(** The two ways the loop ends: on a terminator, with all before it
    consumed and all after it left; or on the end of the buffer. *)
Lemma read_from_outcome (n : nat) :
  forall buf domainName, List.length buf <= n ->
    let st := read_from buf domainName in
    rs_b st = zero /\
    ((rs_err st = None /\ exists consumed, buf = consumed ++ zero :: rs_buf st) \/
     (rs_err st = Some EOF /\ rs_buf st = [])).
Proof.
  induction n as [|n IH]; intros buf domainName Hlen.
  - destruct buf; [|cbn in Hlen; lia]. rewrite read_from_nil. cbn. auto.
  - destruct buf as [|b rest]; [rewrite read_from_nil; cbn; auto|].
    destruct (Ascii.eqb b zero) eqn:Hb.
    + apply Ascii.eqb_eq in Hb. subst b. rewrite read_from_terminator. cbn.
      split; [reflexivity|]. left. split; [reflexivity|]. now exists [].
    + rewrite read_from_nonzero by exact Hb.
      cbn in Hlen. pose proof (length_skipn (nat_of_ascii b) rest) as Hs.
      specialize (IH (skipn (nat_of_ascii b) rest)
                     (add_label domainName
                        (string_of_list_ascii (firstn (nat_of_ascii b) rest)))
                     ltac:(lia)).
      cbv zeta in IH. destruct IH as [Hz [[He [consumed Hc]] | Hr]].
      * split; [exact Hz|]. left. split; [exact He|].
        exists (b :: firstn (nat_of_ascii b) rest ++ consumed).
        cbn [app]. rewrite <- app_assoc. f_equal.
        rewrite <- (firstn_skipn (nat_of_ascii b) rest) at 1. f_equal. exact Hc.
      * split; [exact Hz|]. now right.
Qed.

(** X1. [readDomainName] ends in one of two ways. Without error: the bytes
    it consumed end with a zero byte and everything after that byte is left
    in the buffer. With an error: the error is [io.EOF] and the buffer is
    empty. It raises no other error and never leaves bytes after an error. *)
Theorem readDomainName_outcome (requestBuffer : Buffer) :
  exists domainName err rest,
    readDomainName requestBuffer = (domainName, err, rest) /\
    ((err = None /\ exists consumed, requestBuffer = consumed ++ zero :: rest) \/
     (err = Some EOF /\ rest = [])).
Proof.
  rewrite readDomainName_read_from.
  destruct (read_from_outcome _ requestBuffer "" (Nat.le_refl _)) as [_ H].
  eexists _, _, _. split; [reflexivity | exact H].
Qed.

(** X2. The decoder on a name as it is on the wire: labels of 1 to 255
    bytes, of any bytes, each after its length, then a zero byte. The name
    returned is the labels joined with dots, there is no error, and what
    follows the zero byte is left unread. *)
Theorem readDomainName_wire_name (labels : list string) (rest : Buffer) :
  Forall (fun label => 1 <= String.length label <= 255) labels ->
  readDomainName
    (flat_map (fun label =>
                 ascii_of_nat (String.length label) :: list_ascii_of_string label)
              labels ++ zero :: rest) =
  (String.concat "." labels, None, rest).
Proof.
  intros Hall. rewrite wire_labels_bytes by exact Hall.
  rewrite readDomainName_read_from, read_from_labels by exact Hall.
  cbn [rs_domainName rs_err rs_buf]. now rewrite add_labels_from_empty.
Qed.

Lemma readDomainName_wire_name_witness :
  readDomainName
    (map ascii_of_N [3; 119; 119; 119; 2; 46; 120; 0; 0; 1; 0; 1]%N) =
  ("www..x", None, map ascii_of_N [0; 1; 0; 1]%N).
Proof.
  apply (readDomainName_wire_name ["www"; ".x"] (map ascii_of_N [0; 1; 0; 1]%N)).
  repeat (apply Forall_cons; [cbn; lia|]). apply Forall_nil.
Defined.

(** X3. A first label that is cut short, or that ends the buffer: the
    length byte is not zero and at most that many bytes follow. The decoder
    returns those bytes as the name, with [io.EOF], and an empty buffer. *)
Theorem readDomainName_truncated_label (b : byte) (rest : Buffer) :
  b <> zero -> List.length rest <= nat_of_ascii b ->
  readDomainName (b :: rest) = (string_of_list_ascii rest, Some EOF, []).
Proof.
  intros Hb Hlen. apply Ascii.eqb_neq in Hb.
  rewrite readDomainName_read_from, read_from_nonzero by exact Hb.
  rewrite skipn_all2, firstn_all2 by exact Hlen.
  rewrite read_from_nil. reflexivity.
Qed.

Lemma readDomainName_truncated_label_witness :
  readDomainName (map ascii_of_N [7; 101; 120; 97]%N) = ("exa", Some EOF, []).
Proof.
  apply (readDomainName_truncated_label (ascii_of_N 7) (map ascii_of_N [101; 120; 97]%N)).
  - discriminate.
  - cbn. lia.
Defined.

(** ** [writeDomainName] *)

Lemma length_label_bytes_cons (label : string) (labels : list string) :
  List.length (flat_map label_bytes (label :: labels)) =
  S (String.length label) + List.length (flat_map label_bytes labels).
Proof.
  cbn [flat_map]. rewrite length_app. unfold label_bytes. cbn [List.length].
  now rewrite length_list_ascii_of_string.
Qed.

Lemma length_label_bytes_Split (s : string) :
  List.length (flat_map label_bytes (Split s ".")) = S (String.length s).
Proof.
  induction s as [|c s IH]; [reflexivity|]. cbn [Split String.length].
  destruct (Ascii.eqb c ".").
  - rewrite length_label_bytes_cons, IH. cbn. lia.
  - pose proof (Split_not_nil s ".") as Hne.
    destruct (Split s ".") as [|p ps]; [contradiction|].
    rewrite length_label_bytes_cons in *. cbn [String.length]. lia.
Qed.

(** X4. [writeDomainName] never fails and only appends: the buffer it was
    given is kept, the name costs its length plus two bytes, whatever its
    labels, and the last byte written is zero. *)
Theorem writeDomainName_appends (responseBuffer : Buffer) (domainName : string) :
  exists written,
    writeDomainName responseBuffer domainName =
      (responseBuffer ++ written ++ [zero], None) /\
    List.length (written ++ [zero]) = String.length domainName + 2.
Proof.
  exists (flat_map label_bytes (Split domainName ".")).
  split; [apply writeDomainName_bytes|].
  rewrite length_app, length_label_bytes_Split. cbn. lia.
Qed.

(** ** What the decoding loop of the handler needs *)

Lemma readDomainName_cases (buf : Buffer) (domainName : string)
    (err : option error) (buf1 : Buffer) :
  readDomainName buf = (domainName, err, buf1) ->
  (err = None /\ List.length buf1 < List.length buf) \/
  (err = Some EOF /\ buf1 = []).
Proof.
  rewrite readDomainName_read_from. intros H. injection H as _ <- <-.
  destruct (read_from_outcome _ buf "" (Nat.le_refl _)) as [_ [[He [c Hc]] | Hr]].
  - left. split; [exact He|]. apply (f_equal (@List.length ascii)) in Hc.
    rewrite length_app in Hc. cbn [List.length] in Hc.
    unfold Buffer, byte in *. lia.
  - now right.
Qed.

Lemma Uint16_Next_2 (buf : Buffer) (v : N) :
  Uint16 (firstn 2 buf) = Some v ->
  List.length (skipn 2 buf) + 2 = List.length buf.
Proof.
  destruct buf as [|b0 [|b1 buf]]; cbn; try discriminate. intros _. lia.
Qed.

(** Every question decoded costs the buffer five bytes or more. *)
Lemma decodeQuestions_consumes (n : nat) :
  forall buf qs rest,
    decodeQuestions n buf = Some (qs, rest) ->
    5 * n + List.length rest <= List.length buf.
Proof.
  induction n as [|n IH]; intros buf qs rest; cbn [decodeQuestions].
  - intros H. injection H as _ <-. lia.
  - destruct (readDomainName buf) as [[name err] buf1] eqn:Hread. unfold Next.
    destruct (Uint16 (firstn 2 buf1)) as [t|] eqn:Ht; [|discriminate].
    destruct (Uint16 (firstn 2 (skipn 2 buf1))) as [c|] eqn:Hc; [|discriminate].
    destruct (decodeQuestions n _) as [[records buf']|] eqn:Hrec; [|discriminate].
    intros H. injection H as _ <-.
    apply IH in Hrec. apply Uint16_Next_2 in Ht. apply Uint16_Next_2 in Hc.
    destruct (readDomainName_cases _ _ _ _ Hread) as [[_ Hlt] | [_ ->]];
      [lia | cbn in Ht; lia].
Qed.

Lemma binary_Read_header_long (buf : Buffer) :
  12 <= List.length buf ->
  exists h, binary_Read_header buf = (h, None, skipn 12 buf).
Proof.
  intros Hlen. do 12 (destruct buf as [|? buf]; [cbn in Hlen; lia|]).
  eexists. reflexivity.
Qed.

Lemma binary_Read_header_short (buf : Buffer) :
  List.length buf < 12 ->
  exists e, binary_Read_header buf = (zeroHeader, Some e, []).
Proof.
  intros Hlen.
  destruct buf as [|? buf]; [now exists EOF|].
  do 11 (destruct buf as [|? buf]; [now exists ErrUnexpectedEOF|]).
  cbn in Hlen. lia.
Qed.

(** X5. A datagram of twelve bytes or more whose header announces more
    questions than a fifth of the bytes after the header panics the handler,
    whatever the name store holds: nothing is sent. For the 512 bytes the
    listener hands over, that is any question count above 100. *)
Theorem handleDNSClient_panics_on_overcount (GetNames : nat -> names_result)
    (requestBytes : list byte) :
  12 <= List.length requestBytes ->
  List.length requestBytes - 12 <
    5 * N.to_nat (NumQuestions (fst (fst (binary_Read_header requestBytes)))) ->
  handleDNSClient GetNames requestBytes = None.
Proof.
  intros Hlen Hcount. unfold handleDNSClient, decodeRequest.
  destruct (binary_Read_header_long _ Hlen) as [h Hh]. rewrite Hh in *.
  cbn [fst] in Hcount.
  destruct (decodeQuestions _ _) as [[qs rest]|] eqn:Hdec; [|reflexivity].
  apply decodeQuestions_consumes in Hdec. rewrite length_skipn in Hdec. lia.
Qed.

Lemma handleDNSClient_panics_on_overcount_witness :
  handleDNSClient (fun _ => (example_names, None)) overcounted_request = None.
Proof.
  apply (handleDNSClient_panics_on_overcount _ overcounted_request).
  - vm_compute. lia.
  - vm_compute. lia.
Defined.

(** X6. An error of [readDomainName] is never survived: when the name of
    the question being decoded comes back with an error, the buffer is empty
    and the read of the type on the next line panics. The handler sends no
    response after it has logged a label error. *)
Theorem decodeQuestions_panics_after_name_error (n : nat) (requestBuffer : Buffer)
    (domainName : string) (e : error) (rest : Buffer) :
  readDomainName requestBuffer = (domainName, Some e, rest) ->
  decodeQuestions (S n) requestBuffer = None.
Proof.
  intros Hread. cbn [decodeQuestions]. rewrite Hread.
  destruct (readDomainName_cases _ _ _ _ Hread) as [[He _] | [_ ->]];
    [discriminate | reflexivity].
Qed.

Lemma decodeQuestions_panics_after_name_error_witness :
  decodeQuestions 1 (map ascii_of_N [7; 101; 120; 97]%N) = None.
Proof.
  apply (decodeQuestions_panics_after_name_error 0 _ "exa" EOF []).
  reflexivity.
Defined.

(** X7. A datagram of fewer than twelve bytes: the header read fails, the
    header stays zero, no question is decoded and no lookup made, and the
    handler answers with the twelve bytes of a header that has transaction ID
    0, the response flag and four zero counts. *)
Theorem handleDNSClient_short_datagram (GetNames : nat -> names_result)
    (requestBytes : list byte) :
  List.length requestBytes < 12 ->
  handleDNSClient GetNames requestBytes =
  Some (map ascii_of_N [0; 0; 128; 0; 0; 0; 0; 0; 0; 0; 0; 0]%N).
Proof.
  intros Hlen. unfold handleDNSClient, decodeRequest.
  destruct (binary_Read_header_short _ Hlen) as [e ->]. reflexivity.
Qed.

Lemma handleDNSClient_short_datagram_witness :
  handleDNSClient (fun _ => (example_names, None)) (map ascii_of_N [18; 52; 1]%N) =
  Some (map ascii_of_N [0; 0; 128; 0; 0; 0; 0; 0; 0; 0; 0; 0]%N).
Proof.
  apply handleDNSClient_short_datagram. cbn. lia.
Defined.

(** X8. Every response the handler sends starts with twelve bytes of which
    the third and fourth, the flags, are 0x80 0x00: the response bit and
    nothing else. The flags of the request are not copied. *)
Theorem response_flags (GetNames : nat -> names_result)
    (requestBytes response : list byte) :
  handleDNSClient GetNames requestBytes = Some response ->
  exists i1 i0 tail,
    response = i1 :: i0 :: ascii_of_N 128 :: zero :: tail /\
    8 <= List.length tail.
Proof.
  unfold handleDNSClient.
  destruct (decodeRequest requestBytes) as [[qh qs]|]; [|discriminate].
  destruct (resolveQuestions _ _ _ _) as [[[ans auth] add]|]; [|discriminate].
  intros H. injection H as <-. rewrite encodeResponse_sections.
  unfold header_bytes, u16_bytes. cbn [app responseHeader Flags].
  eexists _, _, _. split; [reflexivity|]. cbn [List.length]. lia.
Qed.

Lemma response_flags_witness :
  exists i1 i0 tail,
    map ascii_of_N [18; 52; 128; 0; 0; 0; 0; 0; 0; 0; 0; 0]%N =
      i1 :: i0 :: ascii_of_N 128 :: zero :: tail /\
    8 <= List.length tail.
Proof.
  apply (response_flags (fun _ => ([], None))
           (map ascii_of_N [18; 52; 1; 32; 0; 0; 0; 0; 0; 0; 0; 0]%N)).
  reflexivity.
Defined.

(** X9. A datagram of twelve bytes or more whose header announces no
    question gets twelve bytes back: its own transaction ID, the response
    flag and four zero counts. The name store is not consulted. *)
Theorem handleDNSClient_no_question (GetNames : nat -> names_result)
    (requestBytes : list byte) :
  12 <= List.length requestBytes ->
  NumQuestions (fst (fst (binary_Read_header requestBytes))) = 0%N ->
  handleDNSClient GetNames requestBytes =
  Some (firstn 2 requestBytes ++ map ascii_of_N [128; 0; 0; 0; 0; 0; 0; 0; 0; 0]%N).
Proof.
  intros Hlen. do 12 (destruct requestBytes as [|? requestBytes]; [cbn in Hlen; lia|]).
  cbn [binary_Read_header fst NumQuestions]. intros Hq.
  unfold handleDNSClient, decodeRequest. cbn [binary_Read_header NumQuestions].
  rewrite Hq. cbn [N.to_nat decodeQuestions resolveQuestions].
  rewrite encodeResponse_sections. unfold header_bytes, responseHeader.
  cbn [TransactionID Flags NumQuestions NumAnswers NumAuthorities NumAdditionals].
  rewrite u16_bytes_be16. reflexivity.
Qed.

Lemma handleDNSClient_no_question_witness :
  handleDNSClient (fun _ => (example_names, None))
    (map ascii_of_N [18; 52; 1; 0; 0; 0; 0; 0; 0; 0; 0; 0; 7; 7; 7]%N) =
  Some (map ascii_of_N [18; 52; 128; 0; 0; 0; 0; 0; 0; 0; 0; 0]%N).
Proof.
  apply (handleDNSClient_no_question _
           (map ascii_of_N [18; 52; 1; 0; 0; 0; 0; 0; 0; 0; 0; 0; 7; 7; 7]%N)).
  - cbn. lia.
  - reflexivity.
Defined.

(** ** The answers of [dbLookup] *)

Lemma slice_12_16_length (a : IP) (data : list byte) :
  slice a 12 16 = Some data -> List.length data = 4.
Proof.
  unfold slice. destruct (16 <=? List.length a)%nat eqn:H; [|discriminate].
  change (12 <=? 16)%nat with true. cbn [andb].
  intros E. apply Nat.leb_le in H.
  assert (Hd : data = firstn (16 - 12) (skipn 12 a)) by congruence.
  rewrite Hd, length_firstn, length_skipn. lia.
Qed.

Lemma dbLookup_range_shape (queryName : string) (all : list Name) (names : list Name) :
  (forall name, In name names -> In name all) ->
  forall acc res,
    dbLookup_range queryName names acc = Some res ->
    exists new, res = acc ++ new /\ List.length new <= List.length names /\
                Forall (answer_shape queryName all) new.
Proof.
  induction names as [|n names IH]; intros Hsub acc res; cbn [dbLookup_range].
  - intros H. injection H as <-. exists []. rewrite app_nil_r. repeat split; auto.
  - assert (Hsub' : forall name, In name names -> In name all)
      by (intros name Hn; apply Hsub; now right).
    destruct (Contains queryName (Name_Name n)) eqn:Hm.
    + destruct (slice (Name_Address n) 12 16) as [data|] eqn:Hs; [|discriminate].
      intros H. destruct (IH Hsub' _ _ H) as (new & -> & Hlen & Hall).
      exists (mkRR (Name_Name n) TypeA ClassINET 31337 4 data :: new).
      rewrite <- app_assoc. split; [reflexivity|]. split; [cbn; lia|].
      constructor; [|exact Hall]. unfold answer_shape.
      cbn [Type_ Class_ TimeToLive ResourceDataLength ResourceData DomainName].
      rewrite (slice_12_16_length _ _ Hs). repeat split.
      exists n. split; [apply Hsub; now left|]. now split.
    + intros H. destruct (IH Hsub' _ _ H) as (new & -> & Hlen & Hall).
      exists new. split; [reflexivity|]. split; [cbn; lia | exact Hall].
Qed.

(** X10. Whatever [dbLookup] returns: the authority and additional sections
    are empty; there are at most as many answers as table entries; and every
    answer has type A, class INET, TTL 31337, four bytes of data with a data
    length that says so, and the name of a table entry that the queried name
    contains. *)
Theorem dbLookup_answers_shape (names : list Name) (err : option error)
    (q : DNSResourceRecord) (ans auth add : list DNSResourceRecord) :
  dbLookup (names, err) q = Some (ans, auth, add) ->
  auth = [] /\ add = [] /\
  List.length ans <= List.length names /\
  Forall (answer_shape (DomainName q) names) ans.
Proof.
  unfold dbLookup.
  destruct (negb (is_nil err));
    [intros H; injection H as <- <- <-; repeat split; [cbn; lia | constructor]|].
  destruct (_ || _);
    [intros H; injection H as <- <- <-; repeat split; [cbn; lia | constructor]|].
  destruct (dbLookup_range _ names []) as [res|] eqn:Hr; [|discriminate].
  intros H. injection H as <- <- <-.
  destruct (dbLookup_range_shape _ names names (fun _ H => H) _ _ Hr)
    as (new & -> & Hlen & Hall).
  repeat split; assumption.
Qed.

Lemma dbLookup_answers_shape_witness :
  let ans := [mkRR "example.com" 1 1 31337 4 (map ascii_of_N [1; 2; 3; 4]%N);
              mkRR "foo.example.com" 1 1 31337 4 (map ascii_of_N [5; 6; 7; 8]%N)] in
  @nil DNSResourceRecord = [] /\ @nil DNSResourceRecord = [] /\
  List.length ans <= List.length example_names /\
  Forall (answer_shape "foo.example.com" example_names) ans.
Proof.
  exact (dbLookup_answers_shape example_names None
           (mkRR "foo.example.com" 1 1 0 0 []) _ [] [] eq_refl).
Defined.

(** ** The resolving loop of the handler *)

Lemma resolveQuestions_answers (GetNames : nat -> names_result)
    (qs : list DNSResourceRecord) :
  forall idx ans0 auth0 add0 ans auth add,
    resolveQuestions GetNames idx qs (ans0, auth0, add0) = Some (ans, auth, add) ->
    ans = ans0 ++ List.concat (answers_per_question GetNames idx qs).
Proof.
  induction qs as [|q qs IH]; intros idx ans0 auth0 add0 ans auth add;
    cbn [resolveQuestions answers_per_question List.concat].
  - intros H. injection H as <- _ _. now rewrite app_nil_r.
  - destruct (dbLookup (GetNames idx) q) as [[[a u] d]|]; [|discriminate].
    intros H. apply IH in H. now rewrite H, app_assoc.
Qed.

Lemma resolveQuestions_None (GetNames : nat -> names_result)
    (qs : list DNSResourceRecord) :
  forall idx acc,
    resolveQuestions GetNames idx qs acc = None <->
    exists k q, nth_error qs k = Some q /\ dbLookup (GetNames (idx + k)) q = None.
Proof.
  induction qs as [|q qs IH]; intros idx acc; cbn [resolveQuestions].
  - split; [discriminate | intros (k & q' & Hk & _); destruct k; discriminate].
  - destruct (dbLookup (GetNames idx) q) as [[[a u] d]|] eqn:Hl.
    + destruct acc as [[ans auth] add]. rewrite IH. split.
      * intros (k & q' & Hk & Hnone). exists (S k), q'. split; [exact Hk|].
        now rewrite Nat.add_succ_r.
      * intros ([|k] & q' & Hk & Hnone).
        -- cbn in Hk. injection Hk as <-. rewrite Nat.add_0_r in Hnone. congruence.
        -- exists k, q'. split; [exact Hk|]. now rewrite Nat.add_succ_r in Hnone.
    + split; [|reflexivity]. intros _. exists 0, q. split; [reflexivity|].
      now rewrite Nat.add_0_r.
Qed.

(** X11. The answer section of a response holds the answers of the
    questions in the order of the questions: after the header and the echoed
    questions come the records the lookup of the first question returned, in
    table order, then those of the second, and so on, and nothing else. *)
Theorem response_answers_in_question_order (GetNames : nat -> names_result)
    (requestBytes : list byte) (qh : DNSHeader) (qs : list DNSResourceRecord)
    (response : list byte) :
  decodeRequest requestBytes = Some (qh, qs) ->
  handleDNSClient GetNames requestBytes = Some response ->
  exists h,
    response =
    header_bytes h ++ flat_map question_bytes qs ++
    flat_map record_bytes (List.concat (answers_per_question GetNames 0 qs)).
Proof.
  intros Hd. unfold handleDNSClient. rewrite Hd.
  destruct (resolveQuestions _ _ _ _) as [[[ans auth] add]|] eqn:Hr; [|discriminate].
  intros H. injection H as <-. rewrite encodeResponse_sections.
  pose proof (resolveQuestions_authority_additional _ _ _ _ _ _ _ _ _ Hr) as [-> ->].
  apply resolveQuestions_answers in Hr. cbn [app] in Hr. subst ans.
  eexists. cbn [flat_map]. now rewrite !app_nil_r.
Qed.

Lemma response_answers_in_question_order_witness :
  exists h,
    match handleDNSClient (fun _ => (example_names, None)) two_question_request with
    | Some response => response
    | None => []
    end =
    header_bytes h ++
    flat_map question_bytes
      [mkRR "foo.example.com" 1 1 0 0 []; mkRR "other.org" 28 1 0 0 []] ++
    flat_map record_bytes
      (List.concat
         (answers_per_question (fun _ => (example_names, None)) 0
            [mkRR "foo.example.com" 1 1 0 0 []; mkRR "other.org" 28 1 0 0 []])).
Proof.
  apply (response_answers_in_question_order (fun _ => (example_names, None))
           two_question_request (mkHeader 4660 256 2 0 0 0)
           [mkRR "foo.example.com" 1 1 0 0 []; mkRR "other.org" 28 1 0 0 []]);
    reflexivity.
Defined.

(** X12. Once the request is decoded, the handler panics exactly when the
    lookup of one of the questions panics: one question that meets a
    matching entry with too short an address costs the whole response, the
    answers of the other questions included. *)
Theorem handleDNSClient_panics_iff_lookup_panics (GetNames : nat -> names_result)
    (requestBytes : list byte) (qh : DNSHeader) (qs : list DNSResourceRecord) :
  decodeRequest requestBytes = Some (qh, qs) ->
  (handleDNSClient GetNames requestBytes = None <->
   exists k q, nth_error qs k = Some q /\ dbLookup (GetNames k) q = None).
Proof.
  intros Hd. unfold handleDNSClient. rewrite Hd.
  rewrite <- (resolveQuestions_None GetNames qs 0 ([], [], [])).
  destruct (resolveQuestions _ _ _ _) as [[[ans auth] add]|];
    split; congruence.
Qed.

Lemma handleDNSClient_panics_iff_lookup_panics_witness :
  handleDNSClient
    (fun k => if Nat.eqb k 0 then ([mkName "example.com" []], None)
              else (example_names, None))
    two_question_request = None <->
  exists k q,
    nth_error [mkRR "foo.example.com" 1 1 0 0 []; mkRR "other.org" 28 1 0 0 []] k =
      Some q /\
    dbLookup ((fun k => if Nat.eqb k 0 then ([mkName "example.com" []], None)
                        else (example_names, None)) k) q = None.
Proof.
  apply (handleDNSClient_panics_iff_lookup_panics _ two_question_request
           (mkHeader 4660 256 2 0 0 0)).
  reflexivity.
Defined.

Lemma dbLookup_nothing_to_answer (got : names_result) (q : DNSResourceRecord) :
  snd got <> None \/
  N.eqb (Type_ q) TypeA && N.eqb (Class_ q) ClassINET = false ->
  dbLookup got q = Some ([], [], []).
Proof.
  unfold dbLookup. destruct got as [names [e|]]; cbn [snd is_nil negb]; [reflexivity|].
  intros [H | H]; [contradiction|].
  destruct (N.eqb (Type_ q) TypeA), (N.eqb (Class_ q) ClassINET);
    cbn in H |- *; congruence.
Qed.

Lemma resolveQuestions_nothing_to_answer (GetNames : nat -> names_result)
    (qs : list DNSResourceRecord) :
  forall idx acc,
    (forall k q, nth_error qs k = Some q ->
       dbLookup (GetNames (idx + k)) q = Some ([], [], [])) ->
    resolveQuestions GetNames idx qs acc = Some acc.
Proof.
  induction qs as [|q qs IH]; intros idx acc Hall; cbn [resolveQuestions]; [reflexivity|].
  rewrite <- (Nat.add_0_r idx) at 1. rewrite (Hall 0 q eq_refl).
  destruct acc as [[ans auth] add]. rewrite !app_nil_r. apply IH.
  intros k q' Hk. rewrite Nat.add_succ_l, <- Nat.add_succ_r. now apply Hall.
Qed.

(** X13. A request of well-formed questions each of which either is not of
    type A and class INET or meets a failing read of the name store: the
    response is the header, with the transaction ID and the question count of
    the request, the response flag and three zero counts, followed by the
    question section of the request, and nothing more. This holds whatever
    the tables hold, entries with unparsable addresses included. *)
Theorem response_without_answers (GetNames : nat -> names_result)
    (header : list byte) (ws : list wire_question) (trailing : list byte) :
  List.length header = 12 ->
  NumQuestions (fst (fst (binary_Read_header header))) = N.of_nat (List.length ws) ->
  Forall wire_question_ok ws ->
  (forall k w, nth_error ws k = Some w ->
     is_A_INET w = false \/ snd (GetNames k) <> None) ->
  handleDNSClient GetNames (header ++ flat_map wire_question_bytes ws ++ trailing) =
  Some (firstn 2 header ++ [ascii_of_N 128; zero] ++ firstn 2 (skipn 4 header) ++
        repeat zero 6 ++ flat_map wire_question_bytes ws).
Proof.
  intros Hlen Hcount Hws Hquiet.
  set (qh := fst (fst (binary_Read_header header))) in *.
  set (qs := map decoded_question ws).
  assert (Hdec : decodeRequest (header ++ flat_map wire_question_bytes ws ++ trailing) =
                 Some (qh, qs)).
  { unfold decodeRequest. rewrite binary_Read_header_12 by exact Hlen. fold qh.
    rewrite Hcount, Nat2N.id, decodeQuestions_wire by exact Hws. reflexivity. }
  assert (Hres : resolveQuestions GetNames 0 qs ([], [], []) = Some ([], [], [])).
  { apply resolveQuestions_nothing_to_answer. intros k q Hk. unfold qs in Hk.
    rewrite nth_error_map in Hk. destruct (nth_error ws k) as [w|] eqn:Hw; [|discriminate].
    cbn in Hk. injection Hk as <-. apply dbLookup_nothing_to_answer.
    destruct (Hquiet k w Hw) as [H | H]; [right; exact H | left; exact H]. }
  rewrite (handleDNSClient_response _ _ _ _ _ _ _ Hdec Hres).
  f_equal. cbn [flat_map]. rewrite !app_nil_r.
  assert (Hqs : flat_map question_bytes qs = flat_map wire_question_bytes ws).
  { unfold qs. clear -Hws. induction Hws as [|w ws Hw _ IH]; [reflexivity|].
    cbn [map flat_map]. now rewrite IH, question_bytes_decoded. }
  rewrite Hqs. unfold qh. clear -Hlen.
  do 12 (destruct header as [|? header]; [discriminate|]).
  unfold header_bytes, responseHeader.
  cbn [binary_Read_header fst TransactionID Flags NumQuestions NumAnswers
       NumAuthorities NumAdditionals].
  rewrite !u16_bytes_be16. reflexivity.
Qed.

Lemma response_without_answers_witness :
  handleDNSClient
    (fun k => if Nat.eqb k 0 then ([], Some (StoreError "unreadable"))
              else ([mkName "other.org" []], None))
    (two_question_request ++ repeat zero 8) =
  Some (map ascii_of_N [18; 52; 128; 0; 0; 2; 0; 0; 0; 0; 0; 0]%N ++
        flat_map wire_question_bytes example_questions).
Proof.
  unfold two_question_request. rewrite <- app_assoc.
  apply (response_without_answers _ example_header example_questions (repeat zero 8)).
  - reflexivity.
  - reflexivity.
  - repeat (apply Forall_cons || apply Forall_nil); split; try discriminate;
      repeat (apply Forall_cons || apply Forall_nil); split;
      try (cbn; lia); intros H; cbn in H; intuition discriminate.
  - intros [|[|k]] w Hk; cbn in Hk.
    + right. cbn. discriminate.
    + left. injection Hk as <-. reflexivity.
    + destruct k; discriminate.
Defined.

(** ** A label too long for its length byte *)

Lemma read_from_extends (n : nat) :
  forall buf domainName,
    List.length buf <= n -> 1 <= String.length domainName ->
    exists x, rs_domainName (read_from buf domainName) = (domainName ++ x)%string /\
              (x = "" \/ exists y, x = String "." y).
Proof.
  assert (Hnil : forall s : string, (s ++ "")%string = s)
    by (induction s as [|c s IH]; cbn; congruence).
  induction n as [|n IH]; intros buf domainName Hlen Hne.
  - destruct buf; [|cbn in Hlen; lia]. rewrite read_from_nil. cbn.
    exists "". rewrite Hnil. auto.
  - destruct buf as [|b rest].
    { rewrite read_from_nil. cbn. exists "". rewrite Hnil. auto. }
    destruct (Ascii.eqb b zero) eqn:Hb.
    + apply Ascii.eqb_eq in Hb. subst b. rewrite read_from_terminator. cbn.
      exists "". rewrite Hnil. auto.
    + rewrite read_from_nonzero by exact Hb. unfold add_label.
      destruct (Nat.eqb_spec (String.length domainName) 0) as [H0|_]; [lia|].
      cbn in Hlen. pose proof (length_skipn (nat_of_ascii b) rest) as Hs.
      destruct (IH (skipn (nat_of_ascii b) rest)
                   (domainName ++ "." ++
                    string_of_list_ascii (firstn (nat_of_ascii b) rest))%string)
        as (x & Hx & _); [lia | rewrite string_length_app; cbn; lia |].
      rewrite Hx. rewrite !string_app_assoc. eexists. split; [reflexivity|].
      right. cbn. eauto.
Qed.

Lemma list_ascii_of_string_app (a b : string) :
  list_ascii_of_string (a ++ b) = list_ascii_of_string a ++ list_ascii_of_string b.
Proof. induction a as [|c a IH]; cbn; [reflexivity | now rewrite IH]. Qed.

(** X14. A name of one label, without a dot, of more than 255 bytes does
    not survive the codec: its length is written modulo 256, and what
    [readDomainName] makes of the bytes is never the name. *)
Theorem long_label_does_not_round_trip (domainName : string) :
  dot_free domainName -> 255 < String.length domainName ->
  fst (fst (readDomainName (fst (writeDomainName [] domainName)))) <> domainName.
Proof.
  intros Hdot Hlong. rewrite writeDomainName_bytes, (Split_dot_free _ Hdot).
  cbn [fst app flat_map label_bytes]. rewrite app_nil_r.
  rewrite readDomainName_read_from. cbn [fst rs_domainName].
  set (n := String.length domainName) in *.
  destruct (Ascii.eqb (byte_of_int n) zero) eqn:Hb.
  - apply Ascii.eqb_eq in Hb. rewrite Hb, read_from_terminator. cbn.
    intros E. subst domainName. cbn in Hlong. lia.
  - rewrite read_from_nonzero by exact Hb. unfold add_label. cbn [String.length Nat.eqb].
    assert (Hm : nat_of_ascii (byte_of_int n) = n mod 256).
    { unfold byte_of_int. apply nat_ascii_embedding. apply Nat.mod_upper_bound. lia. }
    assert (Hm1 : 1 <= n mod 256).
    { destruct (n mod 256) eqn:E; [|lia]. exfalso.
      apply (f_equal ascii_of_nat) in Hm. rewrite ascii_nat_embedding in Hm.
      rewrite Hm in Hb. discriminate. }
    pose proof (Nat.mod_upper_bound n 256 ltac:(lia)) as Hm2.
    rewrite Hm.
    set (bytes := list_ascii_of_string domainName ++ [zero]).
    assert (Hbytes : n mod 256 <= List.length bytes).
    { unfold bytes. rewrite length_app, length_list_ascii_of_string. fold n.
      cbn [List.length]. lia. }
    set (l1 := string_of_list_ascii (firstn (n mod 256) bytes)).
    assert (Hl1 : String.length l1 = n mod 256).
    { unfold l1. rewrite <- length_list_ascii_of_string,
        list_ascii_of_string_of_list_ascii, length_firstn. lia. }
    destruct (read_from_extends _ (skipn (n mod 256) bytes) l1 (Nat.le_refl _))
      as (x & Hx & [-> | [y ->]]); [lia | |];
      change (rs_domainName (read_from (skipn (n mod 256) bytes) l1) <> domainName);
      rewrite Hx; intros E.
    + apply (f_equal String.length) in E. rewrite string_length_app, Hl1 in E.
      fold n in E. cbn [String.length] in E. lia.
    + apply Hdot. rewrite <- E, list_ascii_of_string_app. apply in_or_app.
      right. now left.
Qed.

Lemma long_label_does_not_round_trip_witness :
  fst (fst (readDomainName
              (fst (writeDomainName []
                      (string_of_list_ascii (repeat "a"%char 300)))))) <>
  string_of_list_ascii (repeat "a"%char 300).
Proof.
  apply long_label_does_not_round_trip.
  - unfold dot_free. rewrite list_ascii_of_string_of_list_ascii.
    intros H. apply repeat_spec in H. discriminate.
  - rewrite <- length_list_ascii_of_string, list_ascii_of_string_of_list_ascii,
      repeat_length. lia.
Defined.

(** ** The name store *)

(** X15. From the file to the crash: when [names.json] is read and
    unmarshalled without error and holds an entry whose address
    [net.ParseIP] rejects, every type-A class-INET question whose name
    contains that entry's name makes the [dbLookup] that reads the store
    panic. [GetNames] and [To] keep the entry, with a [nil] address. *)
Theorem GetNames_keeps_unparsable_entry
    (ParseIP : string -> IP) (data : string)
    (Unmarshal : string -> list NameModel * option error)
    (models : list NameModel) (value : NameModel) (q : DNSResourceRecord) :
  Unmarshal data = (models, None) ->
  In value models ->
  ParseIP (NameModel_Address value) = [] ->
  Type_ q = TypeA -> Class_ q = ClassINET ->
  Contains (DomainName q) (NameModel_Name value) = true ->
  In (mkName (NameModel_Name value) [])
     (fst (GetNames_read ParseIP (data, None) Unmarshal)) /\
  dbLookup (GetNames_read ParseIP (data, None) Unmarshal) q = None.
Proof.
  intros Hu Hin Hnil Ht Hc Hm. unfold GetNames_read. rewrite Hu. split.
  - cbn [fst]. rewrite To_map, <- Hnil. apply in_map_iff. now exists value.
  - now apply (dbLookup_panics_on_unparsable_address ParseIP models value).
Qed.

Lemma GetNames_keeps_unparsable_entry_witness :
  let Unmarshal := fun _ : string =>
    ([mkNameModel "example.com" "1.2.3.4"; mkNameModel "bad.org" "1.2.3"], None) in
  In (mkName "bad.org" [])
     (fst (GetNames_read example_ParseIP ("", None) Unmarshal)) /\
  dbLookup (GetNames_read example_ParseIP ("", None) Unmarshal)
           (mkRR "www.bad.org" 1 1 0 0 []) = None.
Proof.
  intros Unmarshal.
  apply (GetNames_keeps_unparsable_entry example_ParseIP "" Unmarshal
           [mkNameModel "example.com" "1.2.3.4"; mkNameModel "bad.org" "1.2.3"]
           (mkNameModel "bad.org" "1.2.3") (mkRR "www.bad.org" 1 1 0 0 []));
    try reflexivity.
  right. left. reflexivity.
Defined.

Lemma entries_split_at_name (name : string) (entries : list Name) :
  (exists pre old post,
     entries = pre ++ old :: post /\ no_entry_named name pre /\ Name_Name old = name) \/
  no_entry_named name entries.
Proof.
  induction entries as [|e entries IH].
  - right. intros entry [].
  - destruct (String.eqb_spec (Name_Name e) name) as [He|He].
    + left. exists [], e, entries. repeat split; [intros entry []| exact He].
    + destruct IH as [(pre & old & post & -> & Hpre & Hold) | Hno].
      * left. exists (e :: pre), old, post. repeat split; [|exact Hold].
        intros entry [<- | Hin]; [exact He | now apply Hpre].
      * right. intros entry [<- | Hin]; [exact He | now apply Hno].
Qed.

Lemma update_entry_found (ParseIP : string -> IP) (name ip : string)
    (pre : list Name) (old : Name) (post : list Name) :
  no_entry_named name pre -> Name_Name old = name ->
  update_entry ParseIP name ip (pre ++ old :: post) =
  (pre ++ mkName name (ParseIP ip) :: post, true).
Proof.
  intros Hpre Hold. induction pre as [|e pre IH]; cbn [app update_entry].
  - rewrite Hold, String.eqb_refl. reflexivity.
  - destruct (String.eqb_spec (Name_Name e) name) as [He|_].
    + exfalso. apply (Hpre e); [now left | exact He].
    + rewrite IH; [reflexivity|]. intros entry Hin. apply Hpre. now right.
Qed.

Lemma update_entry_absent (ParseIP : string -> IP) (name ip : string)
    (entries : list Name) :
  no_entry_named name entries ->
  update_entry ParseIP name ip entries = (entries, false).
Proof.
  intros Hno. induction entries as [|e entries IH]; cbn [update_entry]; [reflexivity|].
  destruct (String.eqb_spec (Name_Name e) name) as [He|_].
  - exfalso. apply (Hno e); [now left | exact He].
  - rewrite IH; [reflexivity|]. intros entry Hin. apply Hno. now right.
Qed.

Lemma handleAddEntry_accepts (ParseIP : string -> IP) (name ip : string)
    (existing : list Name) :
  name <> "" -> ip <> "" ->
  handleAddEntry ParseIP name ip (existing, None) None None =
  (StatusOK,
   Some (let '(entries, nameExists) := update_entry ParseIP name ip existing in
         if nameExists then entries else entries ++ [mkName name (ParseIP ip)])).
Proof.
  intros Hn Hi. unfold handleAddEntry.
  apply String.eqb_neq in Hn. apply String.eqb_neq in Hi. rewrite Hn, Hi.
  cbn [orb is_nil negb]. now destruct (update_entry ParseIP name ip existing).
Qed.

Lemma first_named_app (name : string) (l1 l2 : list Name) :
  first_named name (l1 ++ l2) =
  match first_named name l1 with
  | Some entry => Some entry
  | None => first_named name l2
  end.
Proof.
  unfold first_named. induction l1 as [|e l1 IH]; cbn [app find]; [reflexivity|].
  now destruct (String.eqb (Name_Name e) name).
Qed.

Lemma first_named_absent (name : string) (entries : list Name) :
  no_entry_named name entries -> first_named name entries = None.
Proof.
  intros Hno. unfold first_named. induction entries as [|e entries IH]; [reflexivity|].
  cbn [find]. destruct (String.eqb_spec (Name_Name e) name) as [He|_].
  - exfalso. apply (Hno e); [now left | exact He].
  - apply IH. intros entry Hin. apply Hno. now right.
Qed.

(** X16. An accepted request to add an entry (both parameters given, the
    store read, the file written): when an entry of that name exists, the
    first one gets the parsed address and every other entry, later entries
    of the same name included, stays where it is as it is; when none
    exists, an entry is appended. The address is whatever [net.ParseIP]
    returns, [nil] included. *)
Theorem handleAddEntry_saves (ParseIP : string -> IP) (name ip : string)
    (existing : list Name) :
  name <> "" -> ip <> "" ->
  exists saved,
    handleAddEntry ParseIP name ip (existing, None) None None =
      (StatusOK, Some saved) /\
    ((exists pre old post,
        existing = pre ++ old :: post /\ no_entry_named name pre /\
        Name_Name old = name /\
        saved = pre ++ mkName name (ParseIP ip) :: post) \/
     (no_entry_named name existing /\
      saved = existing ++ [mkName name (ParseIP ip)])).
Proof.
  intros Hn Hi. rewrite handleAddEntry_accepts by assumption.
  destruct (entries_split_at_name name existing)
    as [(pre & old & post & -> & Hpre & Hold) | Hno].
  - rewrite update_entry_found by assumption. eexists. split; [reflexivity|].
    left. exists pre, old, post. auto.
  - rewrite update_entry_absent by assumption. eexists. split; [reflexivity|].
    right. auto.
Qed.

Lemma handleAddEntry_saves_witness :
  exists saved,
    handleAddEntry example_ParseIP "other.org" "1.2.3.4" (example_names, None)
      None None = (StatusOK, Some saved) /\
    ((exists pre old post,
        example_names = pre ++ old :: post /\ no_entry_named "other.org" pre /\
        Name_Name old = "other.org" /\
        saved = pre ++ mkName "other.org" (example_ParseIP "1.2.3.4") :: post) \/
     (no_entry_named "other.org" example_names /\
      saved = example_names ++ [mkName "other.org" (example_ParseIP "1.2.3.4")])).
Proof.
  apply handleAddEntry_saves; discriminate.
Defined.

(** X17. Reading back what was added: in the entries an accepted request
    writes, the first entry of the name has the parsed address, the first
    entry of any other name is the one it was, and there is one entry more
    exactly when the name was new. *)
Theorem handleAddEntry_then_first_named (ParseIP : string -> IP) (name ip : string)
    (existing : list Name) :
  name <> "" -> ip <> "" ->
  exists saved,
    handleAddEntry ParseIP name ip (existing, None) None None =
      (StatusOK, Some saved) /\
    first_named name saved = Some (mkName name (ParseIP ip)) /\
    (forall other, other <> name ->
       first_named other saved = first_named other existing) /\
    List.length saved =
      match first_named name existing with
      | Some _ => List.length existing
      | None => S (List.length existing)
      end.
Proof.
  intros Hn Hi. rewrite handleAddEntry_accepts by assumption.
  assert (Hself : forall a, first_named name [mkName name a] = Some (mkName name a)).
  { intros a. unfold first_named. cbn. now rewrite String.eqb_refl. }
  assert (Hother : forall other a, other <> name ->
            first_named other [mkName name a] = None).
  { intros other a Ho. unfold first_named. cbn.
    destruct (String.eqb_spec name other); congruence. }
  destruct (entries_split_at_name name existing)
    as [(pre & old & post & -> & Hpre & Hold) | Hno].
  - rewrite update_entry_found by assumption. eexists. split; [reflexivity|].
    split; [|split].
    + rewrite first_named_app, (first_named_absent _ _ Hpre).
      unfold first_named. cbn. now rewrite String.eqb_refl.
    + intros other Ho. rewrite !first_named_app.
      destruct (first_named other pre); [reflexivity|].
      unfold first_named. cbn [find Name_Name]. rewrite Hold.
      destruct (String.eqb_spec name other); congruence.
    + rewrite first_named_app, (first_named_absent _ _ Hpre).
      unfold first_named at 1. cbn [find]. rewrite Hold, String.eqb_refl.
      rewrite !length_app. reflexivity.
  - rewrite update_entry_absent by assumption. eexists. split; [reflexivity|].
    split; [|split].
    + now rewrite first_named_app, (first_named_absent _ _ Hno).
    + intros other Ho. rewrite first_named_app, Hother by exact Ho.
      now destruct (first_named other existing).
    + rewrite (first_named_absent _ _ Hno), length_app. cbn. lia.
Qed.

Lemma handleAddEntry_then_first_named_witness :
  exists saved,
    handleAddEntry example_ParseIP "new.org" "bogus" (example_names, None)
      None None = (StatusOK, Some saved) /\
    first_named "new.org" saved = Some (mkName "new.org" (example_ParseIP "bogus")) /\
    (forall other, other <> "new.org" ->
       first_named other saved = first_named other example_names) /\
    List.length saved =
      match first_named "new.org" example_names with
      | Some _ => List.length example_names
      | None => S (List.length example_names)
      end.
Proof.
  apply handleAddEntry_then_first_named; discriminate.
Defined.

(** X18. Adding is idempotent: the same accepted request, made again on
    the entries the first one wrote, writes the same entries. *)
Theorem handleAddEntry_idempotent (ParseIP : string -> IP) (name ip : string)
    (existing saved : list Name) :
  name <> "" -> ip <> "" ->
  handleAddEntry ParseIP name ip (existing, None) None None = (StatusOK, Some saved) ->
  handleAddEntry ParseIP name ip (saved, None) None None = (StatusOK, Some saved).
Proof.
  intros Hn Hi. rewrite !handleAddEntry_accepts by assumption.
  destruct (entries_split_at_name name existing)
    as [(pre & old & post & -> & Hpre & Hold) | Hno].
  - rewrite update_entry_found by assumption. intros H. injection H as <-.
    now rewrite update_entry_found.
  - rewrite update_entry_absent by assumption. intros H. injection H as <-.
    change (existing ++ [mkName name (ParseIP ip)])
      with (existing ++ mkName name (ParseIP ip) :: []).
    now rewrite update_entry_found.
Qed.

Lemma handleAddEntry_idempotent_witness :
  handleAddEntry example_ParseIP "new.org" "1.2.3.4"
    (example_names ++ [mkName "new.org" (example_ParseIP "1.2.3.4")], None)
    None None =
  (StatusOK, Some (example_names ++ [mkName "new.org" (example_ParseIP "1.2.3.4")])).
Proof.
  apply (handleAddEntry_idempotent example_ParseIP "new.org" "1.2.3.4" example_names);
    try discriminate.
  reflexivity.
Defined.

Lemma find_app_last {A : Type} (p : A -> bool) (l : list A) (x : A) :
  find p (l ++ [x]) =
  match find p l with
  | Some y => Some y
  | None => if p x then Some x else None
  end.
Proof.
  induction l as [|a l IH]; cbn [app find]; [reflexivity|].
  now destruct (p a).
Qed.

Lemma LoadFromFile_fold (ParseIP : string -> IP) (models : list Name) :
  forall (m : nameDB_data) (key : string),
    fold_left
      (fun m entry =>
         map_set m (Name_Name entry)
           (ParseIP (string_of_list_ascii (Name_Address entry))))
      models m key =
    match find (fun entry => String.eqb (Name_Name entry) key) (rev models) with
    | Some entry => Some (ParseIP (string_of_list_ascii (Name_Address entry)))
    | None => m key
    end.
Proof.
  induction models as [|e models IH]; intros m key; cbn [fold_left rev]; [reflexivity|].
  rewrite IH, find_app_last.
  destruct (find _ (rev models)); [reflexivity|].
  unfold map_set. rewrite (String.eqb_sym key). now destruct (String.eqb (Name_Name e) key).
Qed.

(** X19. A successful [LoadFromFile] rebuilds the database from the file
    alone: a name is bound to what [net.ParseIP] makes of the bytes of the
    address of the last entry of that name, taken as a string, a name the
    file does not have is not bound, and nothing of what the database held
    before is left. *)
Theorem LoadFromFile_rebuilds (ParseIP : string -> IP) (data : string)
    (Unmarshal : string -> list Name * option error) (models : list Name)
    (data0 : nameDB_data) :
  Unmarshal data = (models, None) ->
  exists db,
    LoadFromFile ParseIP (ReadFile_data data) Unmarshal data0 = (None, db) /\
    forall key,
      db key =
      match find (fun entry => String.eqb (Name_Name entry) key) (rev models) with
      | Some entry => Some (ParseIP (string_of_list_ascii (Name_Address entry)))
      | None => None
      end.
Proof.
  intros Hu. unfold LoadFromFile. rewrite Hu. eexists. split; [reflexivity|].
  intros key. now rewrite LoadFromFile_fold.
Qed.

Lemma LoadFromFile_rebuilds_witness :
  exists db,
    LoadFromFile example_ParseIP (ReadFile_data "")
      (fun _ => ([mkName "a" (list_ascii_of_string "1.2.3.4");
                  mkName "b" (list_ascii_of_string "1.2.3.4");
                  mkName "a" (list_ascii_of_string "bogus")], None))
      (map_set map_empty "old" []) = (None, db) /\
    forall key,
      db key =
      match find (fun entry => String.eqb (Name_Name entry) key)
                 (rev [mkName "a" (list_ascii_of_string "1.2.3.4");
                       mkName "b" (list_ascii_of_string "1.2.3.4");
                       mkName "a" (list_ascii_of_string "bogus")]) with
      | Some entry => Some (example_ParseIP (string_of_list_ascii (Name_Address entry)))
      | None => None
      end.
Proof.
  apply (LoadFromFile_rebuilds example_ParseIP ""). reflexivity.
Defined.

(** ** The header and what of the request is read *)

(** X20. Header round trip. The twelve bytes written for a header whose
    six fields fit sixteen bits are read back as that header, with nothing
    consumed beyond them; and any twelve bytes, read as a header and written
    again, are the same twelve bytes. *)
Theorem header_round_trip :
  (forall (h : DNSHeader) (rest : list byte),
     header_in_range h ->
     binary_Read_header (Write_header [] h ++ rest) = (h, None, rest)) /\
  (forall header : list byte,
     List.length header = 12 ->
     Write_header [] (fst (fst (binary_Read_header header))) = header).
Proof.
  split.
  - intros h rest Hr. rewrite Write_header_bytes. cbn [app].
    now apply binary_Read_header_bytes.
  - intros header Hlen. rewrite Write_header_bytes. cbn [app].
    do 12 (destruct header as [|? header]; [discriminate|]).
    destruct header; [|discriminate].
    unfold header_bytes.
    cbn [binary_Read_header fst TransactionID Flags NumQuestions NumAnswers
         NumAuthorities NumAdditionals].
    rewrite !u16_bytes_be16. reflexivity.
Qed.

(** X21. What follows the announced questions in the datagram is not read:
    two requests with the same header and the same well-formed questions get
    the same response from the same name store, whatever bytes come after
    the questions (padding, or records a client put there). *)
Theorem bytes_after_questions_ignored (GetNames : nat -> names_result)
    (header : list byte) (ws : list wire_question) (trailing1 trailing2 : list byte) :
  List.length header = 12 ->
  NumQuestions (fst (fst (binary_Read_header header))) = N.of_nat (List.length ws) ->
  Forall wire_question_ok ws ->
  handleDNSClient GetNames (header ++ flat_map wire_question_bytes ws ++ trailing1) =
  handleDNSClient GetNames (header ++ flat_map wire_question_bytes ws ++ trailing2).
Proof.
  intros Hlen Hcount Hws.
  assert (Hdec : forall trailing,
            decodeRequest (header ++ flat_map wire_question_bytes ws ++ trailing) =
            Some (fst (fst (binary_Read_header header)), map decoded_question ws)).
  { intros trailing. unfold decodeRequest. rewrite binary_Read_header_12 by exact Hlen.
    rewrite Hcount, Nat2N.id, decodeQuestions_wire by exact Hws. reflexivity. }
  unfold handleDNSClient. now rewrite !Hdec.
Qed.

Lemma bytes_after_questions_ignored_witness :
  handleDNSClient (fun _ => (example_names, None))
    (example_header ++ flat_map wire_question_bytes example_questions ++ []) =
  handleDNSClient (fun _ => (example_names, None))
    (example_header ++ flat_map wire_question_bytes example_questions ++
     map ascii_of_N [192; 12; 0; 1; 0; 1]%N).
Proof.
  apply bytes_after_questions_ignored.
  - reflexivity.
  - reflexivity.
  - repeat (apply Forall_cons || apply Forall_nil); split; try discriminate;
      repeat (apply Forall_cons || apply Forall_nil); split;
      try (cbn; lia); intros H; cbn in H; intuition discriminate.
Defined.

(** X22. Of the header of the request only the transaction ID and the
    question count count: two datagrams that differ only in the flags and in
    the answer, authority and additional counts get the same response, or
    both panic. *)
Theorem request_flags_and_counts_ignored (GetNames : nat -> names_result)
    (i1 i0 q1 q0 : byte) (flags flags' counts counts' rest : list byte) :
  List.length flags = 2 -> List.length flags' = 2 ->
  List.length counts = 6 -> List.length counts' = 6 ->
  handleDNSClient GetNames (i1 :: i0 :: flags ++ q1 :: q0 :: counts ++ rest) =
  handleDNSClient GetNames (i1 :: i0 :: flags' ++ q1 :: q0 :: counts' ++ rest).
Proof.
  intros Hf Hf' Hc Hc'.
  do 2 (destruct flags as [|? flags]; [discriminate|]).
  destruct flags; [|discriminate].
  do 2 (destruct flags' as [|? flags']; [discriminate|]).
  destruct flags'; [|discriminate].
  do 6 (destruct counts as [|? counts]; [discriminate|]).
  destruct counts; [|discriminate].
  do 6 (destruct counts' as [|? counts']; [discriminate|]).
  destruct counts'; [|discriminate].
  unfold handleDNSClient, decodeRequest. cbn [app binary_Read_header NumQuestions].
  destruct (decodeQuestions _ rest) as [[qs buf]|]; [|reflexivity].
  destruct (resolveQuestions _ _ _ _) as [[[ans auth] add]|]; reflexivity.
Qed.

Lemma request_flags_and_counts_ignored_witness :
  handleDNSClient (fun _ => (example_names, None))
    (map ascii_of_N [18; 52; 1; 0; 0; 1; 0; 0; 0; 0; 0; 0; 0; 0; 1; 0; 1]%N) =
  handleDNSClient (fun _ => (example_names, None))
    (map ascii_of_N [18; 52; 121; 143; 0; 1; 0; 9; 0; 9; 0; 9; 0; 0; 1; 0; 1]%N).
Proof.
  apply (request_flags_and_counts_ignored _
           (ascii_of_N 18) (ascii_of_N 52) (ascii_of_N 0) (ascii_of_N 1)
           (map ascii_of_N [1; 0]%N) (map ascii_of_N [121; 143]%N)
           (map ascii_of_N [0; 0; 0; 0; 0; 0]%N) (map ascii_of_N [0; 9; 0; 9; 0; 9]%N)
           (map ascii_of_N [0; 0; 1; 0; 1]%N)); reflexivity.
Defined.
